(** * fallout1-ce: the one-shot command client [cli.py]

    A shallow embedding of [send_command], [read_text], [wait_for_response]
    and [main], over an explicit model of the operating system (named pipe,
    output file, monotonic clock, sleep, standard streams), followed by the
    properties of the request/response synchronisation.

    Conventions of the embedding.
    - A Python [str] is the list of its code points; [bytes] is a list of
      numbers below 256.
    - Time is counted in milliseconds on the monotonic clock, as an exact
      integer: [time.sleep(0.05)] is a sleep of [50].  Floating-point
      rounding and the non-finite floats are outside the model.
    - Exceptions are values; a computation is a function from the state of
      the world to a result and a new state.
    - A [while True] loop is a recursive function with fuel; [polls] gives
      each loop enough of it, and the loops are shown never to run out. *)

From Stdlib Require Import ZArith NArith List Bool String Ascii Lia.
Import ListNotations.
Local Open Scope Z_scope.

(* ================================================================== *)
(** ** Text *)

Module Text.

(** A Python [str]: a sequence of code points. *)
Definition str := list N.
(** A Python [bytes] object. *)
Definition bytes := list N.

(** An ASCII literal of the source, as a [str]. *)
Definition lit (s : string) : str :=
  map N_of_ascii (list_ascii_of_string s).

(** The code point of ["\n"]. *)
Definition NL : N := 10%N.

Fixpoint str_eqb (a b : str) : bool :=
  match a, b with
  | [], [] => true
  | x :: a', y :: b' => N.eqb x y && str_eqb a' b'
  | _, _ => false
  end.

(** [s.startswith(p)] *)
Fixpoint startswith (p s : str) : bool :=
  match p, s with
  | [], _ => true
  | x :: p', y :: s' => N.eqb x y && startswith p' s'
  | _ :: _, [] => false
  end.

(** [needle in hay] *)
Fixpoint contains (needle hay : str) : bool :=
  startswith needle hay ||
  match hay with
  | [] => false
  | _ :: hay' => contains needle hay'
  end.

(** [s.endswith("\n")] *)
Definition endswith_nl (s : str) : bool :=
  match rev s with
  | c :: _ => N.eqb c NL
  | [] => false
  end.

(** [str.isspace] on one code point: the white space table of CPython. *)
Definition isspace (c : N) : bool :=
  ((9 <=? c) && (c <=? 13) || (28 <=? c) && (c <=? 32) ||
   (c =? 133) || (c =? 160) || (c =? 5760) ||
   (8192 <=? c) && (c <=? 8202) || (c =? 8232) || (c =? 8233) ||
   (c =? 8239) || (c =? 8287) || (c =? 12288))%N.

Fixpoint lstrip (s : str) : str :=
  match s with
  | c :: s' => if isspace c then lstrip s' else s
  | [] => []
  end.

Definition rstrip (s : str) : str := rev (lstrip (rev s)).

(** [s.strip()] *)
Definition strip (s : str) : str := rstrip (lstrip s).

(** [sep.join(words)] *)
Fixpoint join (sep : str) (words : list str) : str :=
  match words with
  | [] => []
  | [w] => w
  | w :: rest => w ++ sep ++ join sep rest
  end.

(** The UTF-8 encoding of one code point; [None] for a surrogate, which
    the strict encoder refuses (and for a number that is no code point). *)
Definition utf8_char (c : N) : option bytes :=
  (if c <? 128 then Some [c]
   else if c <? 2048 then Some [192 + c / 64; 128 + c mod 64]
   else if c <? 65536 then
     if (55296 <=? c) && (c <=? 57343) then None
     else Some [224 + c / 4096; 128 + (c / 64) mod 64; 128 + c mod 64]
   else if c <? 1114112 then
     Some [240 + c / 262144; 128 + (c / 4096) mod 64;
           128 + (c / 64) mod 64; 128 + c mod 64]
   else None)%N.

(** [s.encode("utf-8")]; [None] stands for [UnicodeEncodeError]. *)
Fixpoint utf8 (s : str) : option bytes :=
  match s with
  | [] => Some []
  | c :: s' =>
      match utf8_char c, utf8 s' with
      | Some b, Some bs => Some (b ++ bs)
      | _, _ => None
      end
  end.

(** The substring relation that [contains] decides. *)
Definition Substring (needle hay : str) : Prop :=
  exists pre post, hay = pre ++ needle ++ post.

End Text.
Export Text.

(* ================================================================== *)
(** ** The operating system *)

Module OS.

(** [errno] constants (Linux). *)
Definition ENOENT : Z := 2.
Definition ENXIO : Z := 6.
Definition ETIMEDOUT : Z := 110.

(** An error reported by a system call: its [errno] and the text that
    [str(exc)] gives for it. *)
Record oserror : Type := mkOSError { errno : Z; message : str }.

(** The exceptions the program meets. [OSError] stands for the whole
    family raised by the system layer; the subclass is fixed by [errno]. *)
Inductive exn : Type :=
| OSError (o : oserror)
| TimeoutError (msg : str) (cause : option oserror)  (* [raise ... from] *)
| UnicodeEncodeError (s : str).

(** The system error inside an exception, for [raise ... from exc]. *)
Definition os_cause (e : exn) : option oserror :=
  match e with
  | OSError o => Some o
  | _ => None
  end.

(** [exc.errno]; [None] where the exception carries none. *)
Definition exn_errno (e : exn) : option Z :=
  match e with
  | OSError o => Some (errno o)
  | _ => None
  end.

(** [exc.errno in codes] *)
Definition errno_in (e : exn) (codes : list Z) : bool :=
  match exn_errno e with
  | Some n => existsb (Z.eqb n) codes
  | None => false
  end.

(** [isinstance(e, OSError)]: [TimeoutError] is a subclass of [OSError],
    [UnicodeEncodeError] is a [ValueError]. *)
Definition is_OSError (e : exn) : bool :=
  match e with
  | OSError _ | TimeoutError _ _ => true
  | UnicodeEncodeError _ => false
  end.

(** [isinstance(e, TimeoutError)] *)
Definition is_TimeoutError (e : exn) : bool :=
  match e with
  | TimeoutError _ _ => true
  | OSError o => errno o =? ETIMEDOUT
  | UnicodeEncodeError _ => false
  end.

(** [isinstance(e, FileNotFoundError)] *)
Definition is_FileNotFoundError (e : exn) : bool :=
  match e with
  | OSError o => errno o =? ENOENT
  | _ => false
  end.

(** [str(exc)] *)
Definition exn_str (e : exn) : str :=
  match e with
  | OSError o => message o
  | TimeoutError msg _ => msg
  | UnicodeEncodeError _ => lit "'utf-8' codec can't encode character"
  end.

(** What a system call answers. *)
Inductive outcome (A : Type) : Type :=
| Done (a : A)
| Fails (o : oserror).
Arguments Done {A} a.
Arguments Fails {A} o.

(** What the program does to the world, in order. *)
Inductive event : Type :=
| EvOpen (path : str)                (* os.open(path, O_WRONLY | O_NONBLOCK) *)
| EvWrite (fd : Z) (data : bytes)    (* write and flush on the handle *)
| EvClose (fd : Z)
| EvRead (path : str)                (* read_text(path) *)
| EvSleep (ms : Z)
| EvStdout (s : str)
| EvStderr (s : str)
| EvTraceback (e : exn).             (* the interpreter's report, on stderr,
                                        of an exception nobody caught *)

(** The environment the program runs in: what the [k]-th system call,
    issued at clock time [t], is answered, and how much longer than
    asked it takes ([lag], in milliseconds).  Every run of the program
    on a real system is the run in some environment. *)
Record Env : Type := mkEnv {
  lag : nat -> N;
  on_open : nat -> Z -> str -> outcome Z;
  on_read : nat -> Z -> str -> outcome str;
  on_write : nat -> Z -> Z -> bytes -> outcome unit
}.

Record World : Type := mkWorld {
  env : Env;
  clock : Z;            (* the monotonic clock *)
  ticks : nat;          (* system calls made so far *)
  trace : list event    (* what has been done so far, oldest first *)
}.

(** One system call goes by: it takes [d] plus its lag. *)
Definition pass (d : Z) (w : World) : World :=
  mkWorld (env w) (clock w + d + Z.of_N (lag (env w) (ticks w)))
          (S (ticks w)) (trace w).

Definition log (ev : event) (w : World) : World :=
  mkWorld (env w) (clock w) (ticks w) (trace w ++ [ev]).

(** *** Computations *)

Inductive res (A : Type) : Type :=
| Ok (a : A)
| Raise (e : exn)
| Diverge.            (* a loop that ran out of fuel *)
Arguments Ok {A} a.
Arguments Raise {A} e.
Arguments Diverge {A}.

Definition M (A : Type) : Type := World -> res A * World.

Definition ret {A} (a : A) : M A := fun w => (Ok a, w).
Definition raise {A} (e : exn) : M A := fun w => (Raise e, w).
Definition diverge {A} : M A := fun w => (Diverge, w).

Definition bind {A B} (m : M A) (k : A -> M B) : M B :=
  fun w =>
    match m w with
    | (Ok a, w') => k a w'
    | (Raise e, w') => (Raise e, w')
    | (Diverge, w') => (Diverge, w')
    end.

(** [try: m  except ... as e: h e] *)
Definition try_except {A} (m : M A) (h : exn -> M A) : M A :=
  fun w =>
    match m w with
    | (Raise e, w') => h e w'
    | r => r
    end.

(** [with ...: m], the handle released by [c] on every way out of [m]. *)
Definition finally {A} (m : M A) (c : M unit) : M A :=
  fun w =>
    match m w with
    | (r, w') =>
        match c w' with
        | (Ok _, w'') => (r, w'')
        | (Raise e, w'') => (Raise e, w'')
        | (Diverge, w'') => (Diverge, w'')
        end
    end.

Definition of_outcome {A} (r : outcome A) : res A :=
  match r with
  | Done a => Ok a
  | Fails o => Raise (OSError o)
  end.

(** *** System calls *)

(** [time.monotonic()] *)
Definition monotonic : M Z :=
  fun w => let w' := pass 0 w in (Ok (clock w'), w').

(** [time.sleep(ms / 1000)] *)
Definition sleep (ms : Z) : M unit :=
  fun w => (Ok tt, log (EvSleep ms) (pass ms w)).

(** [os.open(path, os.O_WRONLY | os.O_NONBLOCK)] *)
Definition os_open (path : str) : M Z :=
  fun w => (of_outcome (on_open (env w) (ticks w) (clock w) path),
            log (EvOpen path) (pass 0 w)).

(** The whole of [read_text]: open, read everything, decode, close. *)
Definition sys_read (path : str) : M str :=
  fun w => (of_outcome (on_read (env w) (ticks w) (clock w) path),
            log (EvRead path) (pass 0 w)).

(** [pipe.write(payload); pipe.flush()] on the handle of [fd] *)
Definition fd_write (fd : Z) (data : bytes) : M unit :=
  fun w => (of_outcome (on_write (env w) (ticks w) (clock w) fd data),
            log (EvWrite fd data) (pass 0 w)).

Definition fd_close (fd : Z) : M unit :=
  fun w => (Ok tt, log (EvClose fd) (pass 0 w)).

(** [sys.stdout.write(s)].  The two standard streams are taken to accept
    what is written to them: a closed or unencodable stream, on which the
    write would raise, is outside this model. *)
Definition stdout_write (s : str) : M unit :=
  fun w => (Ok tt, log (EvStdout s) w).

(** [print(s, file=sys.stderr)] *)
Definition print_stderr (s : str) : M unit :=
  fun w => (Ok tt, log (EvStderr (s ++ [NL])) w).

End OS.
Export OS.

Declare Scope cli_scope.
Notation "x <- m ;; k" := (bind m (fun x => k))
  (at level 61, m at next level, right associativity) : cli_scope.
Notation "m ;;; k" := (bind m (fun _ => k))
  (at level 61, right associativity) : cli_scope.
Local Open Scope cli_scope.

(* ================================================================== *)
(** ** The program *)

Module Cli.

Definition DEFAULT_PIPE : str := lit "/tmp/fallout-cli-in".
Definition DEFAULT_OUTPUT : str := lit "/tmp/fallout-cli-out.txt".

(** The pause between two attempts, [time.sleep(0.05)]. *)
Definition POLL : Z := 50.

(** Enough turns of a polling loop for the deadline to pass: every turn
    that goes on sleeps [POLL] at least. *)
Definition polls (timeout : Z) : nat := S (S (Z.to_nat (timeout / POLL))).

(** The [while True] of [send_command]; it ends with the descriptor. *)
Fixpoint open_loop (fuel : nat) (pipe_path : str) (deadline : Z) : M Z :=
  match fuel with
  | O => diverge
  | S fuel' =>
      try_except (os_open pipe_path)
        (fun exc =>
           if negb (is_OSError exc) then raise exc
           else if negb (errno_in exc [ENOENT; ENXIO]) then raise exc
           else
             now <- monotonic ;;
             if now >=? deadline then
               raise (TimeoutError
                        (lit "timed out waiting for pipe: " ++ pipe_path)
                        (os_cause exc))
             else
               sleep POLL ;;;
               open_loop fuel' pipe_path deadline)
  end.

Definition send_command (pipe_path command : str) (timeout : Z) : M unit :=
  t0 <- monotonic ;;
  let deadline := t0 + timeout in
  payload <- match utf8 (command ++ [NL]) with
             | Some b => ret b
             | None => raise (UnicodeEncodeError (command ++ [NL]))
             end ;;
  fd <- open_loop (polls timeout) pipe_path deadline ;;
  finally (fd_write fd payload) (fd_close fd).

Definition read_text (path : str) : M str := sys_read path.

(** [f"command={command}"] *)
Definition marker (command : str) : str := lit "command=" ++ command.

(** The [while True] of [wait_for_response], with the [raise] after it. *)
Fixpoint poll_loop (fuel : nat) (output_path previous command : str)
    (deadline : Z) : M str :=
  match fuel with
  | O => diverge
  | S fuel' =>
      found <- try_except
                 (text <- read_text output_path ;;
                  if negb (str_eqb text previous) &&
                     contains (marker command) text
                  then ret (Some text) else ret None)
                 (fun exc =>
                    if is_FileNotFoundError exc then ret None
                    else raise exc) ;;
      match found with
      | Some text => ret text
      | None =>
          now <- monotonic ;;
          if now >=? deadline then
            raise (TimeoutError
                     (lit "timed out waiting for response file update: "
                        ++ output_path)
                     None)
          else
            sleep POLL ;;;
            poll_loop fuel' output_path previous command deadline
      end
  end.

Definition wait_for_response (output_path previous command : str)
    (timeout : Z) : M str :=
  t0 <- monotonic ;;
  let deadline := t0 + timeout in
  poll_loop (polls timeout) output_path previous command deadline.

(** The parsed command line.  The timeout is a finite number, counted in
    milliseconds; the values [inf] and [nan] that [float] also parses,
    with which no deadline is ever reached, are outside this model. *)
Record Args : Type := mkArgs {
  arg_command : list str;
  arg_pipe : str;
  arg_out : str;
  arg_timeout : Z
}.

(** Lines 85 to 87: the response on standard output. *)
Definition emit (response : str) : M unit :=
  stdout_write response ;;;
  if negb (endswith_nl response) then stdout_write [NL] else ret tt.

(** Lines 70 to 73: the content of the output file before the command
    is sent. *)
Definition snapshot (path : str) : M str :=
  try_except (read_text path)
    (fun exc => if is_FileNotFoundError exc then ret [] else raise exc).

(** [main], from the parsed arguments on; the result is the exit code. *)
Definition main (args : Args) : M Z :=
  let command := strip (join (lit " ") (arg_command args)) in
  if str_eqb command [] then
    print_stderr (lit "error: empty command") ;;;
    ret 2
  else
    previous <- snapshot (arg_out args) ;;
    r <- try_except
           (send_command (arg_pipe args) command (arg_timeout args) ;;;
            response <- wait_for_response (arg_out args) previous command
                          (arg_timeout args) ;;
            ret (inl response))
           (fun exc =>
              if is_TimeoutError exc then
                print_stderr (lit "error: " ++ exn_str exc) ;;; ret (inr 1)
              else if is_OSError exc then
                print_stderr (lit "error: " ++ exn_str exc) ;;; ret (inr 1)
              else raise exc) ;;
    match r with
    | inr code => ret code
    | inl response => emit response ;;; ret 0
    end.

(** Lines 91 and 92, [raise SystemExit(main())]: the exit status of the
    process is the value of [main]; an exception that escapes [main] is
    reported by the interpreter on standard error and the status is [1]. *)
Definition script (args : Args) : M Z :=
  try_except (main args)
    (fun exc => fun w => (Ok 1, log (EvTraceback exc) w)).

End Cli.
Export Cli.

(* ================================================================== *)
(** ** Vocabulary of the properties *)

Module Props.

(** What a system call issued in state [w] would be answered. *)
Definition pipe_now (w : World) (path : str) : outcome Z :=
  on_open (env w) (ticks w) (clock w) path.
Definition file_now (w : World) (path : str) : outcome str :=
  on_read (env w) (ticks w) (clock w) path.
Definition write_now (w : World) (fd : Z) (data : bytes) : outcome unit :=
  on_write (env w) (ticks w) (clock w) fd data.

(** The two answers of [os.open] that mean: nobody listens yet. *)
Definition not_ready (o : oserror) : bool :=
  (errno o =? ENOENT) || (errno o =? ENXIO).

(** System calls take no time and a sleep lasts what was asked. *)
Definition quiet (E : Env) : Prop := forall k, lag E k = 0%N.

(** No reader ever attaches to the pipe. *)
Definition never_ready (E : Env) (pipe_path : str) : Prop :=
  forall k t, exists o,
    on_open E k t pipe_path = Fails o /\ not_ready o = true.

(** The file holds [content] and is never rewritten. *)
Definition unchanged (E : Env) (path content : str) : Prop :=
  forall k t, on_read E k t path = Done content.

(** After [f] more sleeps from clock [c] the deadline [c + timeout] is
    reached. *)
Definition clock_bound (c : Z) (f : nat) (timeout : Z) : Prop :=
  ~ (c + POLL * Z.of_nat f < c + timeout).

(** The two timeout errors of the program. *)
Definition pipe_timeout (pipe_path : str) (o : oserror) : exn :=
  TimeoutError (lit "timed out waiting for pipe: " ++ pipe_path) (Some o).
Definition response_timeout (output_path : str) : exn :=
  TimeoutError
    (lit "timed out waiting for response file update: " ++ output_path) None.

(** Some system call of the run got this answer. *)
Definition answered_open (E : Env) (path : str) (a : outcome Z) : Prop :=
  exists k t, on_open E k t path = a.
Definition answered_read (E : Env) (path : str) (a : outcome str) : Prop :=
  exists k t, on_read E k t path = a.

(** The events a call added: [w'] comes after [w] by [tr]. *)
Definition added (w : World) (tr : list event) (w' : World) : Prop :=
  env w' = env w /\ clock w <= clock w' /\ trace w' = trace w ++ tr.

Definition is_read (ev : event) : bool :=
  match ev with EvRead _ => true | _ => false end.
Definition is_open (ev : event) : bool :=
  match ev with EvOpen _ => true | _ => false end.
Definition is_sleep (ev : event) : bool :=
  match ev with EvSleep _ => true | _ => false end.
Definition is_write (ev : event) : bool :=
  match ev with EvWrite _ _ => true | _ => false end.
(** Something was written to standard error. *)
Definition is_stderr (ev : event) : bool :=
  match ev with EvStderr _ | EvTraceback _ => true | _ => false end.
(** An event on the pipe or on the output file. *)
Definition is_io (ev : event) : bool :=
  match ev with
  | EvOpen _ | EvWrite _ _ | EvClose _ | EvRead _ => true
  | _ => false
  end.

(** Everything written to standard output, in order. *)
Fixpoint stdout_text (tr : list event) : str :=
  match tr with
  | [] => []
  | EvStdout s :: tr' => s ++ stdout_text tr'
  | _ :: tr' => stdout_text tr'
  end.

(** The text standard output gets for a response. *)
Definition emitted (response : str) : str :=
  if endswith_nl response then response else response ++ [NL].


(** What the two handlers of [main] do with an exception [e] raised in
    state [w]: report it and end with [1], or let it through. *)
Definition report (e : exn) (w : World) : res Z * World :=
  if is_OSError e
  then (Ok 1, log (EvStderr (lit "error: " ++ exn_str e ++ [NL])) w)
  else (Raise e, w).

(** The command [main] derives from its arguments. *)
Definition command_of (args : Args) : str :=
  strip (join (lit " ") (arg_command args)).

End Props.
Export Props.

(* ================================================================== *)
(** ** Some environments *)

Module Scenarios.

Definition enoent : oserror :=
  mkOSError ENOENT (lit "[Errno 2] No such file or directory").
Definition enxio : oserror :=
  mkOSError ENXIO (lit "[Errno 6] No such device or address").
Definition eacces : oserror :=
  mkOSError 13 (lit "[Errno 13] Permission denied").

(** A reader is attached and the file holds [content] for good. *)
Definition steady (content : str) : Env :=
  mkEnv (fun _ => 0%N) (fun _ _ _ => Done 3)
        (fun _ _ _ => Done content) (fun _ _ _ _ => Done tt).

(** Nobody there: no reader on the pipe, no output file. *)
Definition deserted : Env :=
  mkEnv (fun _ => 0%N) (fun _ _ _ => Fails enxio)
        (fun _ _ _ => Fails enoent) (fun _ _ _ _ => Done tt).

(** The reader attaches at time [T] and never answers: the file stays
    empty. *)
Definition late_reader (T : Z) : Env :=
  mkEnv (fun _ => 0%N)
        (fun _ t _ => if T <=? t then Done 3 else Fails enxio)
        (fun _ _ _ => Done []) (fun _ _ _ _ => Done tt).

(** A reader is attached; the file holds [old] when the program starts
    and [fresh] from then on. *)
Definition responsive (old fresh : str) : Env :=
  mkEnv (fun _ => 0%N) (fun _ _ _ => Done 3)
        (fun k _ _ => match k with O => Done old | S _ => Done fresh end)
        (fun _ _ _ _ => Done tt).


(** A reader is attached; reading the file fails with [o]. *)
Definition unreadable (o : oserror) : Env :=
  mkEnv (fun _ => 0%N) (fun _ _ _ => Done 3)
        (fun _ _ _ => Fails o) (fun _ _ _ _ => Done tt).


(** The world at clock [c], nothing done yet. *)
Definition start (E : Env) (c : Z) : World := mkWorld E c 0 [].

End Scenarios.
Export Scenarios.

(* ================================================================== *)
(** ** More vocabulary *)

Module More.

(** A text of white space only. *)
Definition blank (s : str) : Prop := Forall (fun c => isspace c = true) s.

(** A text of ASCII characters only. *)
Definition ascii_only (s : str) : Prop := Forall (fun c => (c < 128)%N) s.

(** What a polling loop leaves in the trace when it tries [n + 1] times:
    the attempts [ev], one sleep of [POLL] between two of them. *)
Fixpoint polling (ev : event) (n : nat) : list event :=
  match n with
  | O => [ev]
  | S n' => ev :: EvSleep POLL :: polling ev n'
  end.

(** The file never shows a fresh answer to [command]: whenever it is
    read it is absent, or holds the baseline, or lacks the marker. *)
Definition never_fresh (E : Env) (path previous command : str) : Prop :=
  forall k t,
    match on_read E k t path with
    | Done text =>
        negb (str_eqb text previous) && contains (marker command) text = false
    | Fails o => errno o = ENOENT
    end.

(** A reader is attached to the pipe for good, and takes what is written. *)
Definition always_ready (E : Env) (pipe_path : str) (fd : Z) : Prop :=
  forall k t, on_open E k t pipe_path = Done fd.
Definition writable (E : Env) : Prop :=
  forall k t fd data, on_write E k t fd data = Done tt.

Definition is_stdout (ev : event) : bool :=
  match ev with EvStdout _ => true | _ => false end.

(** Everything [main] itself printed on standard error, in order. *)
Fixpoint stderr_text (tr : list event) : str :=
  match tr with
  | [] => []
  | EvStderr s :: tr' => s ++ stderr_text tr'
  | _ :: tr' => stderr_text tr'
  end.

End More.
Export More.



(* ================================================================== *)
(** ** Facts about text *)

Section TextFacts.

Lemma str_eqb_eq (a b : str) : str_eqb a b = true <-> a = b.
Proof.
  revert b; induction a as [|x a IH]; intros [|y b]; simpl;
    try (split; [discriminate | congruence]); try tauto.
  rewrite andb_true_iff, N.eqb_eq, IH.
  split; [intros [-> ->]; reflexivity | intros E; injection E; auto].
Qed.

Lemma str_eqb_refl (a : str) : str_eqb a a = true.
Proof. apply str_eqb_eq; reflexivity. Qed.

Lemma str_eqb_neq (a b : str) : str_eqb a b = false <-> a <> b.
Proof.
  rewrite <- str_eqb_eq. destruct (str_eqb a b); split; congruence.
Qed.

Lemma startswith_spec (p s : str) :
  startswith p s = true <-> exists post, s = p ++ post.
Proof.
  revert s; induction p as [|x p IH]; intros s; simpl.
  - split; [intros _; exists s; reflexivity | reflexivity].
  - destruct s as [|y s].
    + split; [discriminate | intros [post E]; discriminate].
    + rewrite andb_true_iff, N.eqb_eq, IH. split.
      * intros [-> [post ->]]. exists post; reflexivity.
      * intros [post E]. injection E as -> ->. split; [reflexivity | eauto].
Qed.

(** [in] decides the substring relation. *)
Lemma contains_spec (needle hay : str) :
  contains needle hay = true <-> Substring needle hay.
Proof.
  unfold Substring. induction hay as [|c hay IH].
  - simpl. rewrite orb_false_r, startswith_spec. split.
    + intros [post E]. exists [], post. exact E.
    + intros [pre [post E]]. destruct pre; simpl in E.
      * eauto.
      * discriminate.
  - simpl. rewrite orb_true_iff, startswith_spec, IH. split.
    + intros [[post E] | [pre [post E]]].
      * exists [], post. exact E.
      * exists (c :: pre), post. simpl. congruence.
    + intros [pre [post E]]. destruct pre as [|d pre]; simpl in E.
      * left. eauto.
      * right. injection E as _ E. eauto.
Qed.

Lemma Some_inj {A} (x y : A) : Some x = Some y -> x = y.
Proof. congruence. Qed.

Lemma utf8_char_ascii (c : N) : (c < 128)%N -> utf8_char c = Some [c].
Proof.
  intros H. unfold utf8_char.
  destruct (N.ltb_spec c 128); [reflexivity | lia].
Qed.


(** Every byte of an encoding is a byte. *)
Lemma utf8_char_range (c : N) (b : bytes) :
  utf8_char c = Some b -> Forall (fun x => (x < 256)%N) b.
Proof.
  unfold utf8_char.
  destruct (N.ltb_spec c 128).
  { intros E; apply Some_inj in E; subst b. repeat constructor. lia. }
  destruct (N.ltb_spec c 2048).
  { intros E; apply Some_inj in E; subst b.
    assert (c / 64 < 32)%N by (apply N.Div0.div_lt_upper_bound; lia).
    assert (c mod 64 < 64)%N by (apply N.mod_lt; lia).
    repeat constructor; lia. }
  destruct (N.ltb_spec c 65536).
  { destruct ((55296 <=? c)%N && (c <=? 57343)%N); [discriminate|].
    intros E; apply Some_inj in E; subst b.
    assert (c / 4096 < 16)%N by (apply N.Div0.div_lt_upper_bound; lia).
    assert ((c / 64) mod 64 < 64)%N by (apply N.mod_lt; lia).
    assert (c mod 64 < 64)%N by (apply N.mod_lt; lia).
    repeat constructor; lia. }
  destruct (N.ltb_spec c 1114112); [|discriminate].
  intros E; apply Some_inj in E; subst b.
  assert (c / 262144 < 5)%N by (apply N.Div0.div_lt_upper_bound; lia).
  assert ((c / 4096) mod 64 < 64)%N by (apply N.mod_lt; lia).
  assert ((c / 64) mod 64 < 64)%N by (apply N.mod_lt; lia).
  assert (c mod 64 < 64)%N by (apply N.mod_lt; lia).
  repeat constructor; lia.
Qed.

Lemma utf8_range (s : str) (b : bytes) :
  utf8 s = Some b -> Forall (fun x => (x < 256)%N) b.
Proof.
  revert b; induction s as [|c s IH]; simpl; intros b.
  - intros E; injection E as <-. constructor.
  - destruct (utf8_char c) as [bc|] eqn:Ec; [|discriminate].
    destruct (utf8 s) as [bs|]; [|discriminate].
    intros E; injection E as <-.
    apply Forall_app. split; [eapply utf8_char_range; eauto | auto].
Qed.

(** The encoder works code point by code point. *)
Lemma utf8_app (a b : str) :
  utf8 (a ++ b) =
  match utf8 a, utf8 b with
  | Some x, Some y => Some (x ++ y)
  | _, _ => None
  end.
Proof.
  induction a as [|c a IH]; simpl.
  - destruct (utf8 b); reflexivity.
  - rewrite IH. destruct (utf8_char c); [|reflexivity].
    destruct (utf8 a); [|reflexivity].
    destruct (utf8 b); [|reflexivity].
    rewrite app_assoc. reflexivity.
Qed.

(** The payload of a command: its own bytes, then one line feed. *)
Lemma utf8_line (command : str) (payload : bytes) :
  utf8 (command ++ [NL]) = Some payload <->
  exists cb, utf8 command = Some cb /\ payload = cb ++ [NL].
Proof.
  rewrite utf8_app. simpl. destruct (utf8 command) as [cb|].
  - split.
    + intros E; injection E as <-. eauto.
    + intros [cb' [E ->]]. injection E as ->. reflexivity.
  - split; [discriminate | intros [cb' [E _]]; discriminate].
Qed.


End TextFacts.

(* ================================================================== *)
(** ** Facts about the world *)

Section WorldFacts.

Lemma added_refl (w : World) : added w [] w.
Proof. unfold added. rewrite app_nil_r. repeat split; lia. Qed.

Lemma added_trans w1 tr1 w2 tr2 w3 :
  added w1 tr1 w2 -> added w2 tr2 w3 -> added w1 (tr1 ++ tr2) w3.
Proof.
  unfold added. intros (E1 & C1 & T1) (E2 & C2 & T2).
  repeat split; [congruence | lia |].
  rewrite T2, T1, app_assoc. reflexivity.
Qed.

Lemma added_pass (d : Z) (w : World) : 0 <= d -> added w [] (pass d w).
Proof.
  intros H. unfold added, pass; simpl. rewrite app_nil_r.
  repeat split; lia.
Qed.

Lemma added_log (ev : event) (w : World) : added w [ev] (log ev w).
Proof. unfold added, log; simpl. repeat split; lia. Qed.

Lemma added_pass_log (d : Z) (ev : event) (w : World) :
  0 <= d -> added w [ev] (log ev (pass d w)).
Proof.
  intros H. change [ev] with ([] ++ [ev]).
  eapply added_trans; [apply added_pass; exact H | apply added_log].
Qed.

Lemma quiet_pass (d : Z) (w : World) :
  quiet (env w) -> clock (pass d w) = clock w + d.
Proof. intros Q. unfold pass; simpl. rewrite Q. simpl. lia. Qed.

Lemma clock_pass_ge (d : Z) (w : World) : clock w + d <= clock (pass d w).
Proof. unfold pass; simpl. lia. Qed.

End WorldFacts.

(* ================================================================== *)
(** ** The loop of [send_command] *)

Section OpenLoop.

Variable pipe_path : str.
Variable deadline : Z.

(** One turn of the loop, spelled out on the state. *)
Lemma open_loop_step (fuel : nat) (w : World) :
  open_loop (S fuel) pipe_path deadline w =
  let w1 := log (EvOpen pipe_path) (pass 0 w) in
  match pipe_now w pipe_path with
  | Done fd => (Ok fd, w1)
  | Fails o =>
      if not_ready o then
        let w2 := pass 0 w1 in
        if clock w2 >=? deadline then (Raise (pipe_timeout pipe_path o), w2)
        else open_loop fuel pipe_path deadline (log (EvSleep POLL) (pass POLL w2))
      else (Raise (OSError o), w1)
  end.
Proof.
  unfold pipe_now, pipe_timeout. cbn [open_loop].
  unfold try_except, os_open at 1.
  destruct (on_open (env w) (ticks w) (clock w) pipe_path) as [fd|o];
    cbn [of_outcome is_OSError negb errno_in exn_errno existsb os_cause].
  - reflexivity.
  - unfold not_ready. rewrite orb_false_r.
    destruct ((errno o =? ENOENT) || (errno o =? ENXIO)); cbn [negb].
    + unfold bind, monotonic, sleep, raise.
      cbv zeta.
      destruct (clock (pass 0 (log (EvOpen pipe_path) (pass 0 w))) >=? deadline);
        reflexivity.
    + reflexivity.
Qed.

(** What a run of the loop does to the world and how it can end.  A run
    out of fuel is possible only with less fuel than the deadline asks. *)
Lemma open_loop_run (fuel : nat) : forall (w : World) r w',
  open_loop fuel pipe_path deadline w = (r, w') ->
  (exists tr, added w tr w' /\
              Forall (fun ev => is_open ev || is_sleep ev = true) tr) /\
  (quiet (env w) -> clock w < deadline + POLL -> clock w' < deadline + POLL) /\
  match r with
  | Ok fd => answered_open (env w) pipe_path (Done fd)
  | Raise e =>
      (exists o, e = OSError o /\ not_ready o = false /\
                 answered_open (env w) pipe_path (Fails o)) \/
      (exists o, e = pipe_timeout pipe_path o /\ not_ready o = true /\ deadline <= clock w')
  | Diverge =>
      match fuel with
      | O => True
      | S f => clock w + POLL * Z.of_nat f < deadline
      end
  end.
Proof.
  induction fuel as [|fuel IH]; intros w r w' H.
  - injection H as <- <-. split; [|split; auto].
    exists []. split; [apply added_refl | constructor].
  - rewrite open_loop_step in H. cbv zeta in H.
    pose proof (added_pass_log 0 (EvOpen pipe_path) w (Z.le_refl 0)) as A1.
    set (w1 := log (EvOpen pipe_path) (pass 0 w)) in *.
    pose proof (added_pass 0 w1 (Z.le_refl 0)) as A2.
    set (w2 := pass 0 w1) in *.
    assert (Q1 : quiet (env w) -> clock w1 = clock w).
    { intros Q. subst w1. cbn [log clock]. rewrite quiet_pass by exact Q. lia. }
    assert (Q2 : quiet (env w) -> clock w2 = clock w).
    { intros Q. subst w2. rewrite quiet_pass; [rewrite Q1 by exact Q; lia|].
      destruct A1 as (-> & _). exact Q. }
    destruct (pipe_now w pipe_path) as [fd|o] eqn:PN.
    { injection H as <- <-. split; [|split].
      - exists [EvOpen pipe_path]. split; [exact A1 | repeat constructor].
      - intros Q L. rewrite Q1 by exact Q. exact L.
      - exists (ticks w), (clock w). exact PN. }
    destruct (not_ready o) eqn:NR.
    2:{ injection H as <- <-. split; [|split].
        - exists [EvOpen pipe_path]. split; [exact A1 | repeat constructor].
        - intros Q L. rewrite Q1 by exact Q. exact L.
        - left. exists o. repeat split; auto.
          exists (ticks w), (clock w). exact PN. }
    destruct (clock w2 >=? deadline) eqn:G; rewrite Z.geb_leb in G.
    { apply Z.leb_le in G. injection H as <- <-. split; [|split].
      - exists ([EvOpen pipe_path] ++ []). split.
        + eapply added_trans; eauto.
        + repeat constructor.
      - intros Q L. rewrite Q2 by exact Q. exact L.
      - right. exists o. auto. }
    apply Z.leb_gt in G.
    pose proof (added_pass_log POLL (EvSleep POLL) w2 ltac:(unfold POLL; lia)) as A3.
    set (w3 := log (EvSleep POLL) (pass POLL w2)) in *.
    assert (C3 : clock w2 + POLL <= clock w3).
    { subst w3. cbn [log clock]. apply clock_pass_ge. }
    destruct (IH _ _ _ H) as ((tr & A4 & F4) & QB & R).
    pose proof (added_trans _ _ _ _ _ (added_trans _ _ _ _ _ A1 A2) A3) as A13.
    assert (E3 : env w3 = env w) by apply A13.
    rewrite E3 in R.
    split; [|split].
    + exists ((([EvOpen pipe_path] ++ []) ++ [EvSleep POLL]) ++ tr). split.
      * eapply added_trans; eauto.
      * apply Forall_app. split; [repeat constructor | exact F4].
    + intros Q L. apply QB.
      * rewrite E3. exact Q.
      * assert (clock w3 = clock w2 + POLL).
        { subst w3. cbn [log clock]. apply quiet_pass.
          destruct (added_trans _ _ _ _ _ A1 A2) as (-> & _). exact Q. }
        lia.
    + destruct r as [fd|e|]; auto.
      destruct A1 as (_ & C1 & _), A2 as (_ & C2 & _).
      destruct fuel as [|f]; [lia|].
      rewrite Nat2Z.inj_succ. unfold POLL in *. lia.
Qed.

End OpenLoop.

(* ================================================================== *)
(** ** The loop of [wait_for_response] *)

Section PollLoop.

Variables output_path previous command : str.
Variable deadline : Z.

(** One turn of the loop, spelled out on the state. *)
Lemma poll_loop_step (fuel : nat) (w : World) :
  poll_loop (S fuel) output_path previous command deadline w =
  let w1 := log (EvRead output_path) (pass 0 w) in
  let miss :=
    let w2 := pass 0 w1 in
    if clock w2 >=? deadline then (Raise (response_timeout output_path), w2)
    else poll_loop fuel output_path previous command deadline
           (log (EvSleep POLL) (pass POLL w2)) in
  match file_now w output_path with
  | Done text =>
      if negb (str_eqb text previous) && contains (marker command) text
      then (Ok text, w1) else miss
  | Fails o =>
      if errno o =? ENOENT then miss else (Raise (OSError o), w1)
  end.
Proof.
  unfold file_now, response_timeout. cbn [poll_loop].
  unfold bind at 1, try_except, bind at 1, read_text, sys_read.
  destruct (on_read (env w) (ticks w) (clock w) output_path) as [text|o];
    cbn [of_outcome is_FileNotFoundError].
  - destruct (negb (str_eqb text previous) && contains (marker command) text);
      unfold ret; [reflexivity|].
    unfold bind, monotonic, sleep, raise. cbv zeta.
    destruct (clock (pass 0 (log (EvRead output_path) (pass 0 w))) >=? deadline);
      reflexivity.
  - destruct (errno o =? ENOENT); unfold ret, raise; [|reflexivity].
    unfold bind, monotonic, sleep, raise. cbv zeta.
    destruct (clock (pass 0 (log (EvRead output_path) (pass 0 w))) >=? deadline);
      reflexivity.
Qed.

(** What a run of the loop does to the world and how it can end. *)
Lemma poll_loop_run (fuel : nat) : forall (w : World) r w',
  poll_loop fuel output_path previous command deadline w = (r, w') ->
  (exists tr, added w tr w' /\
              Forall (fun ev => is_read ev || is_sleep ev = true) tr /\
              (fuel <> O -> exists tr', tr = EvRead output_path :: tr')) /\
  (quiet (env w) -> clock w < deadline + POLL -> clock w' < deadline + POLL) /\
  match r with
  | Ok text =>
      text <> previous /\ contains (marker command) text = true /\
      answered_read (env w) output_path (Done text)
  | Raise e =>
      (exists o, e = OSError o /\ errno o <> ENOENT /\
                 answered_read (env w) output_path (Fails o)) \/
      (e = response_timeout output_path /\ deadline <= clock w')
  | Diverge =>
      match fuel with
      | O => True
      | S f => clock w + POLL * Z.of_nat f < deadline
      end
  end.
Proof.
  induction fuel as [|fuel IH]; intros w r w' H.
  - injection H as <- <-. split; [|split; auto].
    exists []. split; [apply added_refl | split; [constructor | congruence]].
  - rewrite poll_loop_step in H. cbv zeta in H.
    pose proof (added_pass_log 0 (EvRead output_path) w (Z.le_refl 0)) as A1.
    set (w1 := log (EvRead output_path) (pass 0 w)) in *.
    pose proof (added_pass 0 w1 (Z.le_refl 0)) as A2.
    set (w2 := pass 0 w1) in *.
    assert (Q1 : quiet (env w) -> clock w1 = clock w).
    { intros Q. subst w1. cbn [log clock]. rewrite quiet_pass by exact Q. lia. }
    assert (Q2 : quiet (env w) -> clock w2 = clock w).
    { intros Q. subst w2. rewrite quiet_pass; [rewrite Q1 by exact Q; lia|].
      destruct A1 as (-> & _). exact Q. }
    set (miss := if clock w2 >=? deadline then _ else _) in H.
    match goal with |- ?G => assert (Miss : miss = (r, w') -> G) end.
    { clear H. subst miss. intros H.
      destruct (clock w2 >=? deadline) eqn:G; rewrite Z.geb_leb in G.
      { apply Z.leb_le in G. injection H as <- <-. split; [|split].
        - exists ([EvRead output_path] ++ []). split; [|split].
          + eapply added_trans; eauto.
          + repeat constructor.
          + intros _. eexists; reflexivity.
        - intros Q L. rewrite Q2 by exact Q. exact L.
        - right. auto. }
      apply Z.leb_gt in G.
      pose proof (added_pass_log POLL (EvSleep POLL) w2
                    ltac:(unfold POLL; lia)) as A3.
      set (w3 := log (EvSleep POLL) (pass POLL w2)) in *.
      assert (C3 : clock w2 + POLL <= clock w3).
      { subst w3. cbn [log clock]. apply clock_pass_ge. }
      destruct (IH _ _ _ H) as ((tr & A4 & F4 & _) & QB & R).
      pose proof (added_trans _ _ _ _ _ (added_trans _ _ _ _ _ A1 A2) A3) as A13.
      assert (E3 : env w3 = env w) by apply A13.
      rewrite E3 in R.
      split; [|split].
      + exists ((([EvRead output_path] ++ []) ++ [EvSleep POLL]) ++ tr).
        split; [|split].
        * eapply added_trans; eauto.
        * apply Forall_app. split; [repeat constructor | exact F4].
        * intros _. eexists; reflexivity.
      + intros Q L. apply QB.
        * rewrite E3. exact Q.
        * assert (clock w3 = clock w2 + POLL).
          { subst w3. cbn [log clock]. apply quiet_pass.
            destruct (added_trans _ _ _ _ _ A1 A2) as (-> & _). exact Q. }
          lia.
      + destruct r as [text|e|]; auto.
        destruct A1 as (_ & C1 & _), A2 as (_ & C2 & _).
        destruct fuel as [|f]; [lia|].
        rewrite Nat2Z.inj_succ. unfold POLL in *. lia. }
    destruct (file_now w output_path) as [text|o] eqn:FN.
    + destruct (negb (str_eqb text previous) && contains (marker command) text)
        eqn:Match; [|auto].
      injection H as <- <-. apply andb_true_iff in Match as [Ne Co].
      split; [|split].
      * exists [EvRead output_path]. split; [exact A1 | split].
        -- repeat constructor.
        -- intros _. eexists; reflexivity.
      * intros Q L. rewrite Q1 by exact Q. exact L.
      * split; [|split; [exact Co|]].
        -- apply str_eqb_neq. destruct (str_eqb text previous);
             [discriminate | reflexivity].
        -- exists (ticks w), (clock w). exact FN.
    + destruct (errno o =? ENOENT) eqn:En; [auto|].
      injection H as <- <-. split; [|split].
      * exists [EvRead output_path]. split; [exact A1 | split].
        -- repeat constructor.
        -- intros _. eexists; reflexivity.
      * intros Q L. rewrite Q1 by exact Q. exact L.
      * left. exists o. split; [reflexivity | split].
        -- apply Z.eqb_neq. exact En.
        -- exists (ticks w), (clock w). exact FN.
Qed.

End PollLoop.

(* ================================================================== *)
(** ** The two phases as wholes *)

Section Phases.

(** The fuel of [polls] always lasts to the deadline. *)
Lemma polls_enough (c timeout : Z) :
  match polls timeout with
  | O => True
  | S f => clock_bound c f timeout
  end.
Proof.
  unfold polls, clock_bound. rewrite Nat2Z.inj_succ.
  destruct (Z.le_gt_cases 0 timeout) as [P|N].
  - rewrite Z2Nat.id by (apply Z.div_pos; unfold POLL; lia).
    pose proof (Z.mul_succ_div_gt timeout POLL ltac:(unfold POLL; lia)).
    lia.
  - assert (timeout / POLL < 0) by (apply Z.div_lt_upper_bound; unfold POLL; lia).
    destruct (timeout / POLL) eqn:D; try lia. cbn [Z.to_nat Z.of_nat].
    unfold POLL. lia.
Qed.

(** [send_command], spelled out on the state. *)
Lemma send_command_unfold (pipe_path command : str) (timeout : Z) (w : World) :
  send_command pipe_path command timeout w =
  let w0 := pass 0 w in
  match utf8 (command ++ [NL]) with
  | None => (Raise (UnicodeEncodeError (command ++ [NL])), w0)
  | Some payload =>
      match open_loop (polls timeout) pipe_path (clock w0 + timeout) w0 with
      | (Ok fd, w1) =>
          (of_outcome (write_now w1 fd payload),
           log (EvClose fd) (pass 0 (log (EvWrite fd payload) (pass 0 w1))))
      | (Raise e, w1) => (Raise e, w1)
      | (Diverge, w1) => (Diverge, w1)
      end
  end.
Proof.
  unfold send_command, bind at 1, monotonic. cbv zeta.
  destruct (utf8 (command ++ [NL])) as [payload|]; [|reflexivity].
  unfold bind at 1, ret, bind.
  destruct (open_loop _ _ _ _) as [[fd|e|] w1]; reflexivity.
Qed.

(** [wait_for_response], spelled out on the state. *)
Lemma wait_for_response_unfold (output_path previous command : str)
    (timeout : Z) (w : World) :
  wait_for_response output_path previous command timeout w =
  poll_loop (polls timeout) output_path previous command
    (clock (pass 0 w) + timeout) (pass 0 w).
Proof. reflexivity. Qed.

(** How a call of [wait_for_response] can end. *)
Lemma wait_for_response_run (output_path previous command : str)
    (timeout : Z) (w : World) r w' :
  wait_for_response output_path previous command timeout w = (r, w') ->
  (exists tr, added w (EvRead output_path :: tr) w' /\
              Forall (fun ev => is_read ev || is_sleep ev = true) tr) /\
  (quiet (env w) -> 0 <= timeout -> clock w' < clock w + timeout + POLL) /\
  match r with
  | Ok text =>
      text <> previous /\ contains (marker command) text = true /\
      answered_read (env w) output_path (Done text)
  | Raise e =>
      (exists o, e = OSError o /\ errno o <> ENOENT /\
                 answered_read (env w) output_path (Fails o)) \/
      (e = TimeoutError
             (lit "timed out waiting for response file update: "
                ++ output_path) None /\
       clock w + timeout <= clock w')
  | Diverge => False
  end.
Proof.
  rewrite wait_for_response_unfold. intros H.
  apply poll_loop_run in H. destruct H as ((tr & A & F & Hd) & QB & R).
  pose proof (added_pass 0 w (Z.le_refl 0)) as A0.
  assert (E0 : env (pass 0 w) = env w) by apply A0.
  rewrite E0 in *.
  split; [|split].
  - destruct Hd as [tr' ->]; [unfold polls; congruence|].
    exists tr'. split.
    + apply (added_trans _ _ _ _ _ A0 A).
    + inversion F; assumption.
  - intros Q P. rewrite (quiet_pass 0 w Q) in QB.
    specialize (QB Q). unfold POLL in *. lia.
  - destruct r as [text|e|]; [exact R | |].
    + destruct R as [R|[-> R]]; [left; exact R | right].
      split; [reflexivity|]. destruct A0 as (_ & C0 & _). lia.
    + pose proof (polls_enough (clock (pass 0 w)) timeout) as PE.
      unfold polls in PE, R. exact (PE R).
Qed.

(** How a call of [send_command] can end: before any system call on the
    text, in the loop, or behind the write. *)
Lemma send_command_run (pipe_path command : str) (timeout : Z)
    (w : World) r w' :
  send_command pipe_path command timeout w = (r, w') ->
  exists pre post,
    added w (pre ++ post) w' /\
    Forall (fun ev => is_open ev || is_sleep ev = true) pre /\
    (quiet (env w) -> 0 <= timeout -> clock w' < clock w + timeout + POLL) /\
    match r with
    | Ok _ =>
        exists fd cb, utf8 command = Some cb /\
          post = [EvWrite fd (cb ++ [NL]); EvClose fd] /\
          answered_open (env w) pipe_path (Done fd)
    | Raise e =>
        (e = UnicodeEncodeError (command ++ [NL]) /\
         utf8 (command ++ [NL]) = None /\ pre = [] /\ post = []) \/
        (exists o, e = OSError o /\ not_ready o = false /\
                   answered_open (env w) pipe_path (Fails o) /\ post = []) \/
        (exists o, e = TimeoutError
                         (lit "timed out waiting for pipe: " ++ pipe_path)
                         (Some o) /\
                   not_ready o = true /\ clock w + timeout <= clock w' /\
                   post = []) \/
        (exists o fd cb, e = OSError o /\ utf8 command = Some cb /\
                   post = [EvWrite fd (cb ++ [NL]); EvClose fd] /\
                   answered_open (env w) pipe_path (Done fd))
    | Diverge => False
    end.
Proof.
  rewrite send_command_unfold. cbv zeta.
  pose proof (added_pass 0 w (Z.le_refl 0)) as A0.
  assert (E0 : env (pass 0 w) = env w) by apply A0.
  destruct (utf8 (command ++ [NL])) as [payload|] eqn:U.
  2:{ intros H; injection H as <- <-. exists [], []. split; [exact A0|].
      split; [constructor|]. split.
      - intros Q P. rewrite quiet_pass by exact Q. unfold POLL. lia.
      - left. auto. }
  apply utf8_line in U. destruct U as (cb & U & ->).
  destruct (open_loop _ _ _ _) as [[fd|e|] w1] eqn:L;
    apply open_loop_run in L; destruct L as ((tr & A & F) & QB & R);
    rewrite E0 in *; intros H.
  - pose proof (added_pass_log 0 (EvWrite fd (cb ++ [NL])) w1 (Z.le_refl 0)) as A2.
    set (w2 := log _ (pass 0 w1)) in *.
    pose proof (added_pass_log 0 (EvClose fd) w2 (Z.le_refl 0)) as A3.
    set (w3 := log _ (pass 0 w2)) in *.
    injection H as <- <-.
    exists tr, [EvWrite fd (cb ++ [NL]); EvClose fd].
    split; [|split; [exact F | split]].
    + apply (added_trans _ _ _ _ _ A0).
      apply (added_trans _ _ _ _ _ A).
      apply (added_trans _ _ _ _ _ A2 A3).
    + intros Q P. rewrite (quiet_pass 0 w Q) in QB. specialize (QB Q).
      assert (E1 : env w1 = env w) by (destruct A as (-> & _); exact E0).
      assert (clock w3 = clock w1).
      { subst w3 w2. cbn [log clock].
        rewrite quiet_pass by (cbn [log env pass]; rewrite E1; exact Q).
        cbn [log clock]. rewrite quiet_pass by (rewrite E1; exact Q). lia. }
      unfold POLL in *. lia.
    + destruct (write_now w1 fd (cb ++ [NL])) as [[]|o]; cbn [of_outcome].
      * exists fd, cb. auto.
      * right. right. right. exists o, fd, cb. auto.
  - injection H as <- <-. exists tr, []. rewrite app_nil_r.
    split; [apply (added_trans _ _ _ _ _ A0 A)|]. split; [exact F|]. split.
    + intros Q P. rewrite (quiet_pass 0 w Q) in QB. specialize (QB Q). unfold POLL in *. lia.
    + right. destruct R as [(o & -> & NR & An)|(o & -> & NR & D)].
      * left. exists o. auto.
      * right. left. exists o. repeat split; auto.
        destruct A0 as (_ & C0 & _). lia.
  - injection H as <- <-. exists tr, []. rewrite app_nil_r.
    split; [apply (added_trans _ _ _ _ _ A0 A)|]. split; [exact F|]. split.
    + intros Q P. rewrite (quiet_pass 0 w Q) in QB. specialize (QB Q). unfold POLL in *. lia.
    + pose proof (polls_enough (clock (pass 0 w)) timeout) as PE.
      unfold polls in PE, R. exact (PE R).
Qed.

End Phases.

(* ================================================================== *)
(** ** Properties of [wait_for_response] *)

Section Waiting.

(** C1. [wait_for_response] returns a text only if it differs from the
    baseline and contains ["command=" + command]; and when the file keeps
    the baseline content for good, whatever that content is (the marker
    included), the call ends with the timeout error, not with a text. *)
Theorem wait_returns_only_fresh_match
    (output_path previous command : str) (timeout : Z) (w : World) :
  (forall text w',
     wait_for_response output_path previous command timeout w = (Ok text, w') ->
     text <> previous /\ Substring (lit "command=" ++ command) text) /\
  (unchanged (env w) output_path previous ->
   exists w',
     wait_for_response output_path previous command timeout w =
     (Raise (TimeoutError
               (lit "timed out waiting for response file update: "
                  ++ output_path) None), w')).
Proof.
  split.
  - intros text w' H. apply wait_for_response_run in H.
    destruct H as (_ & _ & Ne & Co & _).
    split; [exact Ne | apply contains_spec; exact Co].
  - intros U.
    destruct (wait_for_response output_path previous command timeout w)
      as [r w'] eqn:H.
    exists w'. apply wait_for_response_run in H.
    destruct H as (_ & _ & R). destruct r as [text|e|]; [| |contradiction].
    + destruct R as (Ne & _ & k & t & An). rewrite U in An.
      injection An as <-. contradiction.
    + destruct R as [(o & _ & _ & k & t & An)|[-> _]]; [|reflexivity].
      rewrite U in An. discriminate.
Qed.

(** Scenario 1 and scenario 4 of the specification. *)
Lemma wait_returns_only_fresh_match_witness :
  (lit "command=state HP: 100" <> [] /\
   Substring (lit "command=" ++ lit "state") (lit "command=state HP: 100")) /\
  (exists w',
     wait_for_response (lit "out") (lit "command=heal") (lit "heal") 500
       (start (steady (lit "command=heal")) 0) =
     (Raise (TimeoutError
               (lit "timed out waiting for response file update: "
                  ++ lit "out") None), w')).
Proof.
  split.
  - eapply (proj1 (wait_returns_only_fresh_match (lit "out") [] (lit "state")
                     2000 (start (steady (lit "command=state HP: 100")) 0))).
    vm_compute. reflexivity.
  - apply (proj2 (wait_returns_only_fresh_match (lit "out") (lit "command=heal")
                    (lit "heal") 500 (start (steady (lit "command=heal")) 0))).
    intros k t. reflexivity.
Defined.

End Waiting.

(* ================================================================== *)
(** ** [main] *)

Section Main.

Lemma is_TimeoutError_OSError (e : exn) :
  is_TimeoutError e = true -> is_OSError e = true.
Proof. destruct e; simpl; auto. Qed.

(** [main] with a command to send, spelled out on the state. *)
Lemma main_unfold (args : Args) (w : World) :
  command_of args <> [] ->
  main args w =
  match snapshot (arg_out args) w with
  | (Ok previous, w0) =>
      match send_command (arg_pipe args) (command_of args)
              (arg_timeout args) w0 with
      | (Ok _, w1) =>
          match wait_for_response (arg_out args) previous (command_of args)
                  (arg_timeout args) w1 with
          | (Ok response, w2) => (Ok 0, snd (emit response w2))
          | (Raise e, w2) => report e w2
          | (Diverge, w2) => (Diverge, w2)
          end
      | (Raise e, w1) => report e w1
      | (Diverge, w1) => (Diverge, w1)
      end
  | (Raise e, w0) => (Raise e, w0)
  | (Diverge, w0) => (Diverge, w0)
  end.
Proof.
  intros NE. unfold main. fold (command_of args).
  apply str_eqb_neq in NE. rewrite NE.
  unfold bind at 1.
  destruct (snapshot (arg_out args) w) as [[previous|e|] w0]; try reflexivity.
  unfold bind at 1, try_except, bind at 1.
  assert (R : forall e w1,
    (if is_TimeoutError e
     then print_stderr (lit "error: " ++ exn_str e) ;;; ret (inr 1)
     else if is_OSError e
          then print_stderr (lit "error: " ++ exn_str e) ;;; ret (inr 1)
          else @raise (str + Z) e) w1 =
    match report e w1 with
    | (Ok c, w2) => (Ok (inr c), w2)
    | (Raise e', w2) => (Raise e', w2)
    | (Diverge, w2) => (Diverge, w2)
    end).
  { intros e w1. unfold report.
    destruct (is_TimeoutError e) eqn:T.
    - rewrite (is_TimeoutError_OSError e T).
      unfold bind, print_stderr, ret. rewrite <- app_assoc. reflexivity.
    - destruct (is_OSError e); [|reflexivity].
      unfold bind, print_stderr, ret. rewrite <- app_assoc. reflexivity. }
  destruct (send_command _ _ _ w0) as [[[]|e|] w1]; try reflexivity.
  - unfold bind at 1.
    destruct (wait_for_response _ _ _ _ w1) as [[response|e|] w2];
      try reflexivity.
    + unfold ret at 1. cbv beta iota. unfold bind at 1.
      destruct (emit response w2) as [[[]|e|] w3] eqn:Em;
        try reflexivity; exfalso.
      * unfold emit, bind, stdout_write, ret in Em.
        destruct (negb (endswith_nl response)); discriminate.
      * unfold emit, bind, stdout_write, ret in Em.
        destruct (negb (endswith_nl response)); discriminate.
    + rewrite R. unfold report. destruct (is_OSError e); reflexivity.
  - rewrite R. unfold report. destruct (is_OSError e); reflexivity.
Qed.

End Main.

(* ================================================================== *)
(** ** [wait_for_response] at the edge of its deadline *)

Section WaitingEdge.

(** C7. With a timeout of [0], against a file that still holds the
    baseline, [wait_for_response] raises its timeout error at once: it
    has read the file once and never slept, and where system calls take
    no time the clock has not moved. *)
Theorem wait_zero_timeout_unchanged
    (output_path previous command : str) (w : World) :
  file_now (pass 0 w) output_path = Done previous ->
  exists w',
    wait_for_response output_path previous command 0 w =
    (Raise (TimeoutError
              (lit "timed out waiting for response file update: "
                 ++ output_path) None), w') /\
    trace w' = trace w ++ [EvRead output_path] /\
    (quiet (env w) -> clock w' = clock w).
Proof.
  intros F. rewrite wait_for_response_unfold.
  change (polls 0) with 2%nat.
  rewrite poll_loop_step. cbv zeta. rewrite F, str_eqb_refl. cbn [negb andb].
  set (w2 := pass 0 (log (EvRead output_path) (pass 0 (pass 0 w)))).
  assert (G : (clock w2 >=? clock (pass 0 w) + 0) = true).
  { rewrite Z.geb_leb. apply Z.leb_le. subst w2.
    pose proof (clock_pass_ge 0 (log (EvRead output_path) (pass 0 (pass 0 w)))).
    pose proof (clock_pass_ge 0 (pass 0 w)).
    cbn [log clock] in *. lia. }
  rewrite G. exists w2. split; [reflexivity | split; [reflexivity|]].
  intros Q. subst w2.
  rewrite quiet_pass by exact Q. cbn [log clock].
  rewrite quiet_pass by exact Q. rewrite quiet_pass by exact Q. lia.
Qed.

(** The stale file of scenario 4, waited for with no time at all. *)
Lemma wait_zero_timeout_unchanged_witness :
  exists w',
    wait_for_response (lit "out") (lit "command=heal") (lit "heal") 0
      (start (steady (lit "command=heal")) 7) =
    (Raise (TimeoutError
              (lit "timed out waiting for response file update: "
                 ++ lit "out") None), w') /\
    trace w' = [EvRead (lit "out")] /\
    clock w' = 7.
Proof.
  destruct (wait_zero_timeout_unchanged (lit "out") (lit "command=heal")
              (lit "heal") (start (steady (lit "command=heal")) 7))
    as (w' & H & T & C).
  - reflexivity.
  - exists w'. split; [exact H|]. split; [exact T|].
    apply C. intros k. reflexivity.
Defined.

(** C10. [wait_for_response] reads the file before it looks at the
    deadline: whatever the timeout, the first thing a call does is a
    read; and if that read finds a text that differs from the baseline
    and contains ["command=" + command], the call returns it, having
    made two system calls only: the clock reading that fixes the deadline
    and the read. *)
Theorem wait_reads_before_deadline
    (output_path previous command : str) (timeout : Z) (w : World) :
  (forall r w',
     wait_for_response output_path previous command timeout w = (r, w') ->
     exists tr, trace w' = trace w ++ EvRead output_path :: tr) /\
  (forall text,
     file_now (pass 0 w) output_path = Done text ->
     text <> previous ->
     Substring (lit "command=" ++ command) text ->
     wait_for_response output_path previous command timeout w =
     (Ok text, log (EvRead output_path) (pass 0 (pass 0 w)))).
Proof.
  split.
  - intros r w' H. apply wait_for_response_run in H.
    destruct H as ((tr & A & _) & _). exists tr. apply A.
  - intros text F Ne Sub. rewrite wait_for_response_unfold.
    unfold polls. rewrite poll_loop_step. cbv zeta. rewrite F.
    apply str_eqb_neq in Ne. rewrite Ne.
    apply contains_spec in Sub. fold (marker command) in Sub. rewrite Sub.
    reflexivity.
Qed.

(** A fresh answer already in the file, and a deadline a second in the
    past. *)
Lemma wait_reads_before_deadline_witness :
  wait_for_response (lit "out") (lit "old") (lit "state") (-1000)
    (start (steady (lit "command=state HP: 100")) 0) =
  (Ok (lit "command=state HP: 100"),
   log (EvRead (lit "out"))
     (pass 0 (pass 0 (start (steady (lit "command=state HP: 100")) 0)))).
Proof.
  apply (proj2 (wait_reads_before_deadline (lit "out") (lit "old")
                  (lit "state") (-1000)
                  (start (steady (lit "command=state HP: 100")) 0))).
  - reflexivity.
  - vm_compute. discriminate.
  - exists [], (lit " HP: 100"). reflexivity.
Defined.

End WaitingEdge.

(* ================================================================== *)
(** ** What [main] prints and when it stops *)

Section MainFacts.

Lemma snapshot_unfold (path : str) (w : World) :
  snapshot path w =
  (match file_now w path with
   | Done text => Ok text
   | Fails o => if errno o =? ENOENT then Ok [] else Raise (OSError o)
   end,
   log (EvRead path) (pass 0 w)).
Proof.
  unfold snapshot, try_except, read_text, sys_read, file_now.
  destruct (on_read (env w) (ticks w) (clock w) path) as [text|o];
    cbn [of_outcome is_FileNotFoundError]; [reflexivity|].
  destruct (errno o =? ENOENT); reflexivity.
Qed.

Lemma stdout_text_app (a b : list event) :
  stdout_text (a ++ b) = stdout_text a ++ stdout_text b.
Proof.
  induction a as [|ev a IH]; [reflexivity|].
  destruct ev; simpl; rewrite IH; try reflexivity.
  rewrite app_assoc. reflexivity.
Qed.

Lemma stdout_text_io (tr : list event) :
  Forall (fun ev => is_io ev || is_sleep ev = true) tr -> stdout_text tr = [].
Proof.
  induction 1 as [|ev tr H _ IH]; [reflexivity|].
  destruct ev; simpl in *; try discriminate; exact IH.
Qed.

Lemma emit_unfold (response : str) (w : World) :
  emit response w =
  (Ok tt,
   if endswith_nl response then log (EvStdout response) w
   else log (EvStdout [NL]) (log (EvStdout response) w)).
Proof.
  unfold emit, bind, stdout_write, ret.
  destruct (endswith_nl response); reflexivity.
Qed.

Lemma endswith_nl_emitted (response : str) :
  endswith_nl (emitted response) = true.
Proof.
  unfold emitted. destruct (endswith_nl response) eqn:E; [exact E|].
  unfold endswith_nl. rewrite rev_app_distr. reflexivity.
Qed.

Lemma Forall_open_sleep_io (tr : list event) :
  Forall (fun ev => is_open ev || is_sleep ev = true) tr ->
  Forall (fun ev => is_io ev || is_sleep ev = true) tr.
Proof.
  apply Forall_impl. intros [] H; simpl in *; auto; discriminate.
Qed.

Lemma Forall_read_sleep_io (tr : list event) :
  Forall (fun ev => is_read ev || is_sleep ev = true) tr ->
  Forall (fun ev => is_io ev || is_sleep ev = true) tr.
Proof.
  apply Forall_impl. intros [] H; simpl in *; auto; discriminate.
Qed.

Lemma Forall_open_sleep_no_read (tr : list event) :
  Forall (fun ev => is_open ev || is_sleep ev = true) tr ->
  Forall (fun ev => is_read ev = false) tr.
Proof.
  apply Forall_impl. intros [] H; simpl in *; auto; discriminate.
Qed.

(** The fuel of the two loops never runs out: [main] always ends, with
    an exit code or with an exception. *)
Lemma main_total (args : Args) (w : World) : fst (main args w) <> Diverge.
Proof.
  destruct (str_eqb (command_of args) []) eqn:Emp.
  { unfold main. fold (command_of args). rewrite Emp. discriminate. }
  apply str_eqb_neq in Emp. rewrite (main_unfold args w Emp), snapshot_unfold.
  assert (Go : forall previous,
    fst (match send_command (arg_pipe args) (command_of args)
                 (arg_timeout args) (log (EvRead (arg_out args)) (pass 0 w)) with
         | (Ok _, w1) =>
             match wait_for_response (arg_out args) previous (command_of args)
                     (arg_timeout args) w1 with
             | (Ok response, w2) => (Ok 0, snd (emit response w2))
             | (Raise e, w2) => report e w2
             | (Diverge, w2) => (Diverge, w2)
             end
         | (Raise e, w1) => report e w1
         | (Diverge, w1) => (Diverge, w1)
         end) <> Diverge).
  { intros previous.
    destruct (send_command _ _ _ _) as [[[]|e|] w1] eqn:S1;
      apply send_command_run in S1;
      destruct S1 as (pre & post & _ & _ & _ & R1); [| |contradiction].
    - destruct (wait_for_response _ _ _ _ w1) as [[response|e|] w2] eqn:S2;
        apply wait_for_response_run in S2;
        destruct S2 as (_ & _ & R2); [discriminate| |contradiction].
      unfold report. destruct (is_OSError e); discriminate.
    - unfold report. destruct (is_OSError e); discriminate. }
  destruct (file_now w (arg_out args)) as [t|o]; [apply Go|].
  destruct (errno o =? ENOENT); [apply Go | discriminate].
Qed.

(** C8. When the words of the command line, joined by single spaces and
    stripped, leave nothing, [main] prints [error: empty command] on
    standard error and ends with [2]; the print is all it does: no system
    call is made, nothing is opened, read or written. *)
Theorem main_empty_command (args : Args) (w : World) :
  strip (join (lit " ") (arg_command args)) = [] ->
  exists w',
    main args w = (Ok 2, w') /\
    trace w' = trace w ++ [EvStderr (lit "error: empty command" ++ [NL])] /\
    ticks w' = ticks w /\ clock w' = clock w.
Proof.
  intros E. unfold main. rewrite E. cbn [str_eqb].
  eexists. split; [reflexivity|]. repeat split.
Qed.

(** Scenario 3 of the specification: the one argument of two blanks. *)
Lemma main_empty_command_witness :
  exists w',
    main (mkArgs [lit "  "] DEFAULT_PIPE DEFAULT_OUTPUT 2000)
      (start deserted 0) = (Ok 2, w') /\
    trace w' = [EvStderr (lit "error: empty command" ++ [NL])] /\
    ticks w' = 0%nat /\ clock w' = 0.
Proof.
  apply (main_empty_command
           (mkArgs [lit "  "] DEFAULT_PIPE DEFAULT_OUTPUT 2000)
           (start deserted 0)).
  vm_compute. reflexivity.
Defined.

End MainFacts.

(* ================================================================== *)
(** ** The response on standard output *)

Section Emitting.

(** A text ends with a newline, said without the program's own test. *)
Lemma endswith_nl_spec (s : str) :
  endswith_nl s = true <-> exists s', s = s' ++ [NL].
Proof.
  unfold endswith_nl. split.
  - destruct (rev s) as [|c r] eqn:R; [discriminate|].
    intros E. apply N.eqb_eq in E. subst c. exists (rev r).
    rewrite <- (rev_involutive s), R. reflexivity.
  - intros (s' & ->). rewrite rev_app_distr. reflexivity.
Qed.

(** C9. When [main] ends with [0], standard output has received one
    text [out] for the response that [wait_for_response] returned: the
    response itself if the response is some text followed by a newline,
    and the response followed by one newline otherwise; so [out] is some
    text followed by a newline either way. *)
Theorem main_emits_response_line (args : Args) (w w' : World) :
  main args w = (Ok 0, w') ->
  exists previous w0 w1 response w2 out,
    snapshot (arg_out args) w = (Ok previous, w0) /\
    send_command (arg_pipe args) (command_of args) (arg_timeout args) w0 =
      (Ok tt, w1) /\
    wait_for_response (arg_out args) previous (command_of args)
      (arg_timeout args) w1 = (Ok response, w2) /\
    stdout_text (trace w') = stdout_text (trace w) ++ out /\
    (((exists s', response = s' ++ [NL]) /\ out = response) \/
     ((~ exists s', response = s' ++ [NL]) /\ out = response ++ [NL])) /\
    (exists s', out = s' ++ [NL]).
Proof.
  intros H.
  destruct (str_eqb (command_of args) []) eqn:Emp.
  { unfold main in H. fold (command_of args) in H. rewrite Emp in H.
    discriminate. }
  apply str_eqb_neq in Emp. rewrite (main_unfold args w Emp) in H.
  destruct (snapshot (arg_out args) w) as [[previous|e|] w0] eqn:S0;
    try discriminate.
  destruct (send_command _ _ _ w0) as [[[]|e|] w1] eqn:S1;
    try discriminate;
    [|unfold report in H; destruct (is_OSError e); discriminate].
  destruct (wait_for_response _ _ _ _ w1) as [[response|e|] w2] eqn:S2;
    try discriminate;
    [|unfold report in H; destruct (is_OSError e); discriminate].
  injection H as <-.
  exists previous, w0, w1, response, w2, (emitted response).
  split; [reflexivity|]. split; [exact S1|]. split; [exact S2|].
  split; [|split].
  - rewrite snapshot_unfold in S0.
    assert (T0 : trace w0 = trace w ++ [EvRead (arg_out args)])
      by (injection S0 as _ <-; reflexivity).
    apply send_command_run in S1.
    destruct S1 as (pre & post & (_ & _ & T1) & F1 & _ & fd & cb & _ & -> & _).
    apply wait_for_response_run in S2.
    destruct S2 as ((tr & (_ & _ & T2) & F2) & _).
    assert (T3 : stdout_text (trace (snd (emit response w2))) =
                 stdout_text (trace w2) ++ emitted response).
    { rewrite emit_unfold. unfold emitted. cbn [snd].
      destruct (endswith_nl response); cbn [log trace];
        rewrite ?stdout_text_app; simpl; rewrite ?app_nil_r, <- ?app_assoc;
        reflexivity. }
    rewrite T3, T2, T1, T0.
    rewrite !stdout_text_app.
    rewrite (stdout_text_io pre) by (apply Forall_open_sleep_io; exact F1).
    change (stdout_text (EvRead (arg_out args) :: tr)) with (stdout_text tr).
    rewrite (stdout_text_io tr) by (apply Forall_read_sleep_io; exact F2).
    simpl. rewrite !app_nil_r. reflexivity.
  - unfold emitted. destruct (endswith_nl response) eqn:E.
    + left. split; [apply endswith_nl_spec; exact E | reflexivity].
    + right. split; [|reflexivity].
      intros X. apply endswith_nl_spec in X. congruence.
  - apply endswith_nl_spec, endswith_nl_emitted.
Qed.

(** A reader that answers [state] without a final newline: standard
    output gets the answer and one newline. *)
Lemma main_emits_response_line_witness :
  exists previous w0 w1 response w2 out,
    snapshot (lit "out")
      (start (responsive (lit "old") (lit "command=state HP: 100")) 0) =
      (Ok previous, w0) /\
    send_command (lit "pipe") (lit "state") 2000 w0 = (Ok tt, w1) /\
    wait_for_response (lit "out") previous (lit "state") 2000 w1 =
      (Ok response, w2) /\
    stdout_text
      (trace (snd (main (mkArgs [lit "state"] (lit "pipe") (lit "out") 2000)
                     (start (responsive (lit "old")
                               (lit "command=state HP: 100")) 0)))) =
      stdout_text [] ++ out /\
    (((exists s', response = s' ++ [NL]) /\ out = response) \/
     ((~ exists s', response = s' ++ [NL]) /\ out = response ++ [NL])) /\
    (exists s', out = s' ++ [NL]).
Proof.
  apply (main_emits_response_line
           (mkArgs [lit "state"] (lit "pipe") (lit "out") 2000)
           (start (responsive (lit "old") (lit "command=state HP: 100")) 0)).
  vm_compute. reflexivity.
Defined.

End Emitting.

(* ================================================================== *)
(** ** The order of the steps of [main] *)

Section Ordering.

(** A command line whose only word is a lone surrogate (what Python
    makes of an undecodable byte of [argv]): [send_command] raises the
    encoding error, and [main], which handles [TimeoutError] and
    [OSError] only, lets it through: [main] returns no exit code and has
    printed nothing, all it has done is the baseline read. *)
Lemma main_lets_encoding_error_through :
  exists w0 w1 e,
    snapshot (lit "out") (start (steady []) 0) = (Ok [], w0) /\
    send_command (lit "pipe") [56575%N] 2000 w0 = (Raise e, w1) /\
    main (mkArgs [[56575%N]] (lit "pipe") (lit "out") 2000)
      (start (steady []) 0) = (Raise e, w1) /\
    trace w1 = [EvRead (lit "out")] /\
    fst (main (mkArgs [[56575%N]] (lit "pipe") (lit "out") 2000)
           (start (steady []) 0)) <> Ok 1.
Proof.
  do 3 eexists. split; [reflexivity|]. split; [reflexivity|].
  split; [reflexivity|]. split; [reflexivity|]. vm_compute. discriminate.
Qed.

(** C6, as the code has it. With a command to send, [main] first reads
    the output file, before anything is done to the pipe, and takes an
    absent file for empty content.  If [send_command] then raises, [main]
    stops there: an [OSError] (the timeout of the send included) is
    reported on standard error and [main] returns [1]; any other
    exception passes through [main], which prints nothing and returns
    nothing.  In both cases nothing is read after the baseline:
    [wait_for_response] is not invoked. *)
Theorem main_order_and_abort (args : Args) (w : World) :
  strip (join (lit " ") (arg_command args)) <> [] ->
  (snapshot (arg_out args) w =
   (match file_now w (arg_out args) with
    | Done text => Ok text
    | Fails o => if errno o =? ENOENT then Ok [] else Raise (OSError o)
    end,
    log (EvRead (arg_out args)) (pass 0 w))) /\
  (forall r w',
     main args w = (r, w') ->
     exists tr, trace w' = trace w ++ EvRead (arg_out args) :: tr) /\
  (forall previous w0 e w1,
     snapshot (arg_out args) w = (Ok previous, w0) ->
     send_command (arg_pipe args) (command_of args) (arg_timeout args) w0 =
       (Raise e, w1) ->
     main args w =
       (if is_OSError e
        then (Ok 1, log (EvStderr (lit "error: " ++ exn_str e ++ [NL])) w1)
        else (Raise e, w1)) /\
     (exists tr, trace w1 = trace w0 ++ tr /\
                 Forall (fun ev => is_read ev = false) tr)).
Proof.
  intros NE. fold (command_of args) in NE.
  split; [apply snapshot_unfold|]. split.
  - intros r w' H. rewrite (main_unfold args w NE), snapshot_unfold in H.
    set (w0 := log (EvRead (arg_out args)) (pass 0 w)) in *.
    assert (T0 : trace w0 = trace w ++ [EvRead (arg_out args)]) by reflexivity.
    assert (Rep : forall e w1 tr, trace w1 = trace w0 ++ tr ->
              report e w1 = (r, w') ->
              exists tr', trace w' = trace w ++ EvRead (arg_out args) :: tr').
    { intros e w1 tr T1 R. unfold report in R.
      destruct (is_OSError e); injection R as _ <-; cbn [log trace];
        rewrite T1, T0, <- !app_assoc; eexists; reflexivity. }
    destruct (match file_now w (arg_out args) with
              | Done text => Ok text
              | Fails o => if errno o =? ENOENT then Ok [] else Raise (OSError o)
              end) as [previous|e|].
    2:{ injection H as _ <-. exists []. exact T0. }
    2:{ injection H as _ <-. exists []. exact T0. }
    destruct (send_command _ _ _ w0) as [[[]|e|] w1] eqn:S1;
      apply send_command_run in S1;
      destruct S1 as (pre & post & (_ & _ & T1) & _ & _ & R1);
      [| eapply Rep; eauto | contradiction].
    destruct (wait_for_response _ _ _ _ w1) as [[response|e|] w2] eqn:S2;
      apply wait_for_response_run in S2;
      destruct S2 as ((tr & (_ & _ & T2) & _) & _ & R2);
      [| eapply Rep; [|exact H]; rewrite T2, T1, <- app_assoc; reflexivity
       | contradiction].
    injection H as _ <-. rewrite emit_unfold. cbn [snd].
    destruct (endswith_nl response); cbn [log trace];
      rewrite T2, T1, T0, <- !app_assoc; eexists; reflexivity.
  - intros previous w0 e w1 S0 S1.
    assert (M1 : main args w = report e w1)
      by (rewrite (main_unfold args w NE), S0, S1; reflexivity).
    split; [exact M1|].
    + apply send_command_run in S1.
      destruct S1 as (pre & post & (_ & _ & T1) & F1 & _ & R1).
      exists (pre ++ post). split; [exact T1|].
      apply Forall_app. split; [apply Forall_open_sleep_no_read; exact F1|].
      destruct R1 as [(_ & _ & _ & ->)|[(o & _ & _ & _ & ->)|
                      [(o & _ & _ & _ & ->)|(o & fd & cb & _ & _ & -> & _)]]];
        repeat constructor.
Qed.

(** Nobody there: the file is absent and so is the reader. *)
Lemma main_order_and_abort_witness :
  exists w1,
    main (mkArgs [lit "state"] (lit "pipe") (lit "out") 100)
      (start deserted 0) =
    (Ok 1,
     log (EvStderr (lit "error: " ++ lit "timed out waiting for pipe: pipe"
                      ++ [NL])) w1) /\
    (exists tr,
       trace w1 = trace (log (EvRead (lit "out")) (pass 0 (start deserted 0)))
                    ++ tr /\
       Forall (fun ev => is_read ev = false) tr).
Proof.
  eexists.
  refine (proj2 (proj2 (main_order_and_abort
            (mkArgs [lit "state"] (lit "pipe") (lit "out") 100)
            (start deserted 0) _)) [] _
            (TimeoutError (lit "timed out waiting for pipe: pipe") (Some enxio))
            _ _ _).
  - vm_compute. discriminate.
  - reflexivity.
  - vm_compute. reflexivity.
Defined.

End Ordering.

(* ================================================================== *)
(** ** What [send_command] delivers *)

Section Delivering.




End Delivering.

(* ================================================================== *)
(** ** Which errors are retried *)

Section Retrying.



End Retrying.

(* ================================================================== *)
(** ** Deadlines *)

Section Deadlines.



End Deadlines.

(* ================================================================== *)
(** ** Two phases, two deadlines *)

Section TwoDeadlines.

(** With the reader attaching at the deadline itself, the loop of
    [send_command] gets the pipe open, at the deadline or later. *)
Lemma open_loop_late (T : Z) (pipe_path : str) (fuel : nat) :
  forall w r w',
    env w = late_reader T ->
    open_loop fuel pipe_path T w = (r, w') ->
    r = Diverge \/ (r = Ok 3 /\ T <= clock w').
Proof.
  induction fuel as [|fuel IH]; intros w r w' E H.
  - injection H as <- _. left. reflexivity.
  - rewrite open_loop_step in H. cbv zeta in H.
    assert (Q : quiet (env w)) by (rewrite E; intros k; reflexivity).
    unfold pipe_now in H. rewrite E in H. cbn [late_reader on_open] in H.
    destruct (T <=? clock w) eqn:L.
    + apply Z.leb_le in L. injection H as <- <-. right.
      split; [reflexivity|]. cbn [log clock].
      pose proof (clock_pass_ge 0 w). lia.
    + apply Z.leb_gt in L.
      change (not_ready enxio) with true in H. cbv iota in H.
      set (w1 := log (EvOpen pipe_path) (pass 0 w)) in *.
      assert (C2 : clock (pass 0 w1) = clock w).
      { rewrite quiet_pass by exact Q. subst w1. cbn [log clock].
        rewrite quiet_pass by exact Q. lia. }
      destruct (clock (pass 0 w1) >=? T) eqn:G; rewrite Z.geb_leb in G.
      { apply Z.leb_le in G. lia. }
      apply IH in H; [exact H|]. exact E.
Qed.

Lemma report_clock (e : exn) (w : World) r w' :
  report e w = (r, w') -> clock w' = clock w.
Proof.
  unfold report. destruct (is_OSError e); intros H; injection H as _ <-;
    reflexivity.
Qed.

Lemma emit_clock (response : str) (w : World) :
  clock (snd (emit response w)) = clock w.
Proof.
  rewrite emit_unfold. cbn [snd]. destruct (endswith_nl response); reflexivity.
Qed.

(** Twice the timeout is no upper bound on a run.  With a timeout of
    120 ms, system calls that take no time and sleeps that last what was
    asked, and a reader that attaches after 120 ms and never answers:
    the opens at 0, 50 and 100 ms fail before the deadline, the one at
    150 ms succeeds; the wait phase then has its deadline at 270 ms,
    reads at 150, 200 and 250 ms and finds the deadline passed at
    300 ms.  The run lasts 300 ms, more than 2 x 120 ms. *)
Lemma main_run_exceeds_twice_timeout :
  quiet (late_reader 120) /\
  exists w',
    main (mkArgs [lit "state"] (lit "pipe") (lit "out") 120)
      (start (late_reader 120) 0) = (Ok 1, w') /\
    clock w' = 300 /\
    ~ (clock w' <= clock (start (late_reader 120) 0) + 2 * 120).
Proof.
  split; [intros k; reflexivity|].
  eexists. split; [vm_compute; reflexivity|].
  split; [reflexivity|]. vm_compute. intros H. apply H. reflexivity.
Qed.

(** C3, as the code has it. Each phase counts its timeout from its own
    entry: neither [send_command] nor [wait_for_response] raises its
    timeout error before the full [timeout] has gone by since that call
    was entered; and [main] hands [wait_for_response] the same, whole
    timeout, in the state that [send_command] has left.  So one run of
    [main] can last twice the timeout: with a reader that attaches at
    the deadline of the send and never answers, it does.  Twice the
    timeout is not an upper bound, though: each loop tests its deadline
    between polls only, and what holds, where system calls take no time
    and a sleep lasts what was asked, is that a run lasts less than
    twice the timeout plus two polling intervals. *)
Theorem deadlines_are_independent :
  (forall pipe_path command timeout w msg cause w',
     send_command pipe_path command timeout w =
       (Raise (TimeoutError msg cause), w') ->
     clock w + timeout <= clock w') /\
  (forall output_path previous command timeout w msg cause w',
     wait_for_response output_path previous command timeout w =
       (Raise (TimeoutError msg cause), w') ->
     clock w + timeout <= clock w') /\
  (forall args w previous w0 w1,
     command_of args <> [] ->
     snapshot (arg_out args) w = (Ok previous, w0) ->
     send_command (arg_pipe args) (command_of args) (arg_timeout args) w0 =
       (Ok tt, w1) ->
     main args w =
     match wait_for_response (arg_out args) previous (command_of args)
             (arg_timeout args) w1 with
     | (Ok response, w2) => (Ok 0, snd (emit response w2))
     | (Raise e, w2) => report e w2
     | (Diverge, w2) => (Diverge, w2)
     end) /\
  (forall args w r w',
     quiet (env w) -> 0 <= arg_timeout args ->
     main args w = (r, w') ->
     clock w' < clock w + 2 * arg_timeout args + 2 * POLL) /\
  (forall args c cb,
     command_of args <> [] -> utf8 (command_of args) = Some cb ->
     0 <= arg_timeout args ->
     exists w',
       main args (start (late_reader (c + arg_timeout args)) c) = (Ok 1, w') /\
       c + 2 * arg_timeout args <= clock w').
Proof.
  split; [|split; [|split; [|split]]].
  - intros pipe_path command timeout w msg cause w' H.
    apply send_command_run in H. destruct H as (pre & post & _ & _ & _ & R).
    destruct R as [(E & _)|[(o & E & _)|[(o & _ & _ & C & _)|(o & fd & cb & E & _)]]];
      try discriminate. exact C.
  - intros output_path previous command timeout w msg cause w' H.
    apply wait_for_response_run in H. destruct H as (_ & _ & R).
    destruct R as [(o & E & _)|[_ C]]; [discriminate | exact C].
  - intros args w previous w0 w1 NE S0 S1.
    rewrite (main_unfold args w NE), S0, S1. reflexivity.
  - intros args w r w' Q P H.
    destruct (str_eqb (command_of args) []) eqn:Emp.
    { unfold main in H. fold (command_of args) in H. rewrite Emp in H.
      injection H as _ <-. cbn [log clock]. unfold POLL. lia. }
    apply str_eqb_neq in Emp.
    rewrite (main_unfold args w Emp), snapshot_unfold in H.
    set (w0 := log (EvRead (arg_out args)) (pass 0 w)) in *.
    assert (C0 : clock w0 = clock w).
    { subst w0. cbn [log clock]. rewrite quiet_pass by exact Q. lia. }
    assert (E0 : env w0 = env w) by reflexivity.
    destruct (match file_now w (arg_out args) with
              | Done text => Ok text
              | Fails o => if errno o =? ENOENT then Ok [] else Raise (OSError o)
              end) as [previous|e|];
      [| injection H as _ <-; unfold POLL; lia
       | injection H as _ <-; unfold POLL; lia].
    destruct (send_command _ _ _ w0) as [[[]|e|] w1] eqn:S1;
      apply send_command_run in S1;
      destruct S1 as (pre & post & (E1 & _ & _) & _ & B1 & R1);
      [| | contradiction].
    2:{ apply report_clock in H. rewrite E0 in B1. specialize (B1 Q P).
        unfold POLL in *. lia. }
    assert (Q1 : quiet (env w1)) by (rewrite E1, E0; exact Q).
    rewrite E0 in B1. specialize (B1 Q P).
    destruct (wait_for_response _ _ _ _ w1) as [[response|e|] w2] eqn:S2;
      apply wait_for_response_run in S2;
      destruct S2 as (_ & B2 & R2); [| | contradiction];
      specialize (B2 Q1 P).
    + injection H as _ <-. rewrite emit_clock. lia.
    + apply report_clock in H. lia.
  - intros args c cb NE U P.
    set (T := c + arg_timeout args).
    set (w := start (late_reader T) c).
    assert (Q : quiet (late_reader T)) by (intros k; reflexivity).
    rewrite (main_unfold args w NE), snapshot_unfold.
    change (file_now w (arg_out args)) with (@Done str []). cbv iota.
    set (w0 := log (EvRead (arg_out args)) (pass 0 w)).
    assert (C0 : clock w0 = c).
    { subst w0. cbn [log clock]. rewrite quiet_pass by exact Q.
      subst w. cbn [start clock]. lia. }
    destruct (send_command (arg_pipe args) (command_of args) (arg_timeout args)
                w0) as [r1 w1] eqn:S1.
    pose proof (send_command_run _ _ _ _ _ _ S1)
      as (pre & post & (E1 & _ & _) & _ & _ & R1).
    rewrite send_command_unfold in S1. cbv zeta in S1.
    assert (U' : utf8 (command_of args ++ [NL]) = Some (cb ++ [NL]))
      by (apply utf8_line; eauto).
    rewrite U' in S1.
    assert (D : clock (pass 0 w0) + arg_timeout args = T).
    { rewrite quiet_pass by exact Q. subst T. lia. }
    rewrite D in S1.
    destruct (open_loop (polls (arg_timeout args)) (arg_pipe args) T (pass 0 w0))
      as [r0 wl] eqn:L.
    pose proof (open_loop_run _ _ _ _ _ _ L) as ((trl & (El & _ & _) & _) & _).
    apply open_loop_late in L; [|reflexivity].
    destruct L as [->|[-> CL]].
    { injection S1 as <- _. contradiction. }
    assert (W : write_now wl 3 (cb ++ [NL]) = Done tt).
    { unfold write_now. rewrite El. reflexivity. }
    rewrite W in S1. cbn [of_outcome] in S1. injection S1 as <- <-.
    set (w1 := log (EvClose 3)
                 (pass 0 (log (EvWrite 3 (cb ++ [NL])) (pass 0 wl)))) in *.
    assert (C1 : T <= clock w1).
    { subst w1. cbn [log clock].
      pose proof (clock_pass_ge 0 (log (EvWrite 3 (cb ++ [NL])) (pass 0 wl))).
      pose proof (clock_pass_ge 0 wl). cbn [log clock] in *. lia. }
    destruct (wait_for_response (arg_out args) [] (command_of args)
                (arg_timeout args) w1) as [r2 w2] eqn:S2.
    apply wait_for_response_run in S2. destruct S2 as (_ & _ & R2).
    assert (E1' : env w1 = late_reader T) by (rewrite E1; reflexivity).
    destruct r2 as [text|e|]; [| |contradiction].
    + destruct R2 as (Ne & _ & k & t & An). rewrite E1' in An.
      injection An as <-. contradiction.
    + destruct R2 as [(o & _ & _ & k & t & An)|[-> C2]].
      * rewrite E1' in An. discriminate.
      * eexists. split; [reflexivity|]. cbn [log clock]. subst T. lia.
Qed.

(** The command [state] with a timeout of 2 s: the run lasts 4 s. *)
Lemma deadlines_are_independent_witness :
  (exists w',
     main (mkArgs [lit "state"] (lit "pipe") (lit "out") 2000)
       (start (late_reader (0 + 2000)) 0) = (Ok 1, w') /\
     0 + 2 * 2000 <= clock w') /\
  (forall r w',
     main (mkArgs [lit "state"] (lit "pipe") (lit "out") 2000)
       (start (late_reader 2000) 0) = (r, w') ->
     clock w' < 0 + 2 * 2000 + 2 * POLL).
Proof.
  split.
  - apply (proj2 (proj2 (proj2 (proj2 deadlines_are_independent)))
             (mkArgs [lit "state"] (lit "pipe") (lit "out") 2000) 0
             (lit "state")).
    + vm_compute. discriminate.
    + reflexivity.
    + simpl. lia.
  - intros r w'.
    apply (proj1 (proj2 (proj2 (proj2 deadlines_are_independent)))
             (mkArgs [lit "state"] (lit "pipe") (lit "out") 2000)
             (start (late_reader 2000) 0) r w').
    + intros k. reflexivity.
    + simpl. lia.
Defined.

End TwoDeadlines.

(* ================================================================== *)
(** ** The command that [main] derives *)

Section Stripping.

Lemma blank_app (a b : str) : blank (a ++ b) <-> blank a /\ blank b.
Proof. apply Forall_app. Qed.

Lemma blank_rev (a : str) : blank (rev a) <-> blank a.
Proof.
  unfold blank. rewrite !Forall_forall.
  split; intros H c I; apply H; [apply in_rev in I | apply in_rev]; auto.
Qed.

(** [lstrip] cuts a blank prefix off, and what is left does not start
    with white space. *)
Lemma lstrip_spec (s : str) :
  exists pre, s = pre ++ lstrip s /\ blank pre /\
              isspace (hd 0%N (lstrip s)) = false.
Proof.
  induction s as [|c s (pre & E & B & H)].
  - exists []. repeat split. constructor.
  - simpl. destruct (isspace c) eqn:Sp.
    + exists (c :: pre). simpl. split; [congruence|].
      split; [constructor; assumption | exact H].
    + exists []. repeat split; [constructor | exact Sp].
Qed.

Lemma last_app_nonempty (a b : str) (d : N) :
  b <> [] -> last (a ++ b) d = last b d.
Proof.
  intros NE. induction a as [|x a IH]; [reflexivity|].
  simpl. destruct (a ++ b) eqn:E; [|exact IH].
  apply app_eq_nil in E. destruct E. contradiction.
Qed.

Lemma last_rev (a : str) (d : N) : last (rev a) d = hd d a.
Proof.
  destruct a as [|x a]; [reflexivity|].
  simpl. rewrite last_app_nonempty by discriminate. reflexivity.
Qed.

Lemma hd_rev (a : str) (d : N) : hd d (rev a) = last a d.
Proof.
  rewrite <- (rev_involutive a) at 2. rewrite last_rev. reflexivity.
Qed.

(** X1. [strip] takes white space off both ends and nothing else: the
    text is a blank prefix, the stripped text and a blank suffix, and the
    stripped text, unless empty, neither starts nor ends with white
    space. *)
Theorem strip_spec (s : str) :
  exists pre post,
    s = pre ++ strip s ++ post /\ blank pre /\ blank post /\
    (strip s <> [] ->
     isspace (hd 0%N (strip s)) = false /\
     isspace (last (strip s) 0%N) = false).
Proof.
  unfold strip, rstrip.
  destruct (lstrip_spec s) as (pre & E1 & B1 & H1).
  destruct (lstrip_spec (rev (lstrip s))) as (q & E2 & B2 & H2).
  set (m := lstrip s) in *. set (k := lstrip (rev m)) in *.
  exists pre, (rev q). split; [|split; [exact B1 | split]].
  - rewrite <- rev_app_distr, <- E2, rev_involutive. exact E1.
  - apply blank_rev. exact B2.
  - intros NE. rewrite last_rev. split; [|exact H2].
    rewrite hd_rev.
    assert (Kne : k <> []) by (intros K; apply NE; rewrite K; reflexivity).
    assert (L : last k 0%N = last (rev m) 0%N).
    { rewrite E2. symmetry. apply last_app_nonempty. exact Kne. }
    rewrite L, last_rev. exact H1.
Qed.

(** The words [heal] and [2] between blanks. *)
Lemma strip_spec_witness :
  isspace (hd 0%N (strip (lit "  heal 2 "))) = false /\
  isspace (last (strip (lit "  heal 2 ")) 0%N) = false.
Proof.
  destruct (strip_spec (lit "  heal 2 ")) as (pre & post & _ & _ & _ & H).
  apply H. vm_compute. discriminate.
Defined.

Lemma lstrip_nil (s : str) : lstrip s = [] <-> blank s.
Proof.
  destruct (lstrip_spec s) as (pre & E & B & H). split.
  - intros L. rewrite L, app_nil_r in E. subst s. exact B.
  - intros Bs. rewrite E in Bs. apply blank_app in Bs. destruct Bs as [_ Bl].
    destruct (lstrip s) as [|c r]; [reflexivity|].
    inversion Bl; subst. simpl in H. congruence.
Qed.

Lemma strip_nil (s : str) : strip s = [] <-> blank s.
Proof.
  unfold strip, rstrip. split.
  - intros H. apply (f_equal (@rev N)) in H. rewrite rev_involutive in H.
    simpl in H. apply (proj1 (lstrip_nil _)) in H.
    apply (proj1 (blank_rev _)) in H.
    destruct (lstrip_spec s) as (pre & E & B & Hd).
    destruct (lstrip s) as [|c r].
    + rewrite app_nil_r in E. subst s. exact B.
    + inversion H; subst. simpl in Hd. congruence.
  - intros B. apply lstrip_nil in B. rewrite B. reflexivity.
Qed.

Lemma blank_join (words : list str) :
  blank (join (lit " ") words) <-> Forall blank words.
Proof.
  induction words as [|w [|w' rest] IH].
  - simpl. split; constructor.
  - simpl. split; [intros H; constructor; [exact H | constructor]|].
    intros H. inversion H; assumption.
  - change (join (lit " ") (w :: w' :: rest))
      with (w ++ lit " " ++ join (lit " ") (w' :: rest)).
    rewrite !blank_app, IH. split.
    + intros (Bw & _ & Br). constructor; assumption.
    + intros H. inversion H; subst. split; [assumption|]. split; [|assumption].
      repeat constructor.
Qed.

End Stripping.

(* ================================================================== *)
(** ** The ways [main] can end *)

Section MainCases.

(** Every run of [main] is of one of five kinds. *)
Lemma main_cases (args : Args) (w : World) r w' :
  main args w = (r, w') ->
  let w0 := log (EvRead (arg_out args)) (pass 0 w) in
  (command_of args = [] /\ r = Ok 2 /\
   w' = log (EvStderr (lit "error: empty command" ++ [NL])) w) \/
  (command_of args <> [] /\
   ((exists o, file_now w (arg_out args) = Fails o /\ errno o <> ENOENT /\
               r = Raise (OSError o) /\ w' = w0) \/
    (exists previous,
       snapshot (arg_out args) w = (Ok previous, w0) /\
       ((exists e w1,
           send_command (arg_pipe args) (command_of args) (arg_timeout args)
             w0 = (Raise e, w1) /\
           report e w1 = (r, w')) \/
        (exists w1,
           send_command (arg_pipe args) (command_of args) (arg_timeout args)
             w0 = (Ok tt, w1) /\
           ((exists e w2,
               wait_for_response (arg_out args) previous (command_of args)
                 (arg_timeout args) w1 = (Raise e, w2) /\
               is_OSError e = true /\
               r = Ok 1 /\
               w' = log (EvStderr (lit "error: " ++ exn_str e ++ [NL])) w2) \/
            (exists response w2,
               wait_for_response (arg_out args) previous (command_of args)
                 (arg_timeout args) w1 = (Ok response, w2) /\
               r = Ok 0 /\ w' = snd (emit response w2)))))))).
Proof.
  intros H w0.
  destruct (str_eqb (command_of args) []) eqn:Emp.
  { left. unfold main in H. fold (command_of args) in H. rewrite Emp in H.
    apply str_eqb_eq in Emp. injection H as <- <-. auto. }
  right. apply str_eqb_neq in Emp. split; [exact Emp|].
  rewrite (main_unfold args w Emp) in H.
  pose proof (snapshot_unfold (arg_out args) w) as SU. fold w0 in SU.
  destruct (file_now w (arg_out args)) as [text|o] eqn:FN.
  2: destruct (errno o =? ENOENT) eqn:En.
  3:{ left. rewrite SU in H. injection H as <- <-. exists o.
      apply Z.eqb_neq in En. auto. }
  all: right; rewrite SU in H; eexists; (split; [exact SU|]).
  all: destruct (send_command _ _ _ w0) as [[[]|e|] w1] eqn:S1;
    [ | left; eauto
      | apply send_command_run in S1;
        destruct S1 as (? & ? & _ & _ & _ & []) ].
  all: right; exists w1; split; [reflexivity|].
  all: destruct (wait_for_response _ _ _ _ w1) as [[response|e|] w2] eqn:S2;
    [ right; injection H as <- <-; eauto
    | left
    | apply wait_for_response_run in S2;
      destruct S2 as (_ & _ & []) ].
  all: pose proof (wait_for_response_run _ _ _ _ _ _ _ S2) as (_ & _ & R2).
  all: assert (IsOS : is_OSError e = true)
    by (destruct R2 as [(o' & -> & _)|[-> _]]; reflexivity).
  all: unfold report in H; rewrite IsOS in H; injection H as <- <-.
  all: exists e, w2; auto.
Qed.

Lemma stderr_text_app (a b : list event) :
  stderr_text (a ++ b) = stderr_text a ++ stderr_text b.
Proof.
  induction a as [|ev a IH]; [reflexivity|].
  destruct ev; simpl; rewrite IH; try reflexivity.
  rewrite app_assoc. reflexivity.
Qed.

Lemma stderr_text_io (tr : list event) :
  Forall (fun ev => is_io ev || is_sleep ev = true) tr -> stderr_text tr = [].
Proof.
  induction 1 as [|ev tr H _ IH]; [reflexivity|].
  destruct ev; simpl in *; try discriminate; exact IH.
Qed.

(** What the send phase adds to the trace is on the pipe and the clock
    only. *)
Lemma send_command_io (pipe_path command : str) (timeout : Z) w r w' :
  send_command pipe_path command timeout w = (r, w') ->
  exists tr, trace w' = trace w ++ tr /\
             Forall (fun ev => is_io ev || is_sleep ev = true) tr.
Proof.
  intros H. apply send_command_run in H.
  destruct H as (pre & post & (_ & _ & T) & F & _ & R).
  exists (pre ++ post). split; [exact T|].
  apply Forall_app. split; [apply Forall_open_sleep_io; exact F|].
  destruct r as [[]|e|]; [| |contradiction].
  - destruct R as (fd & cb & _ & -> & _). repeat constructor.
  - destruct R as [(_ & _ & _ & ->)|[(o & _ & _ & _ & ->)|
                   [(o & _ & _ & _ & ->)|(o & fd & cb & _ & _ & -> & _)]]];
      repeat constructor.
Qed.

Lemma wait_for_response_io (output_path previous command : str)
    (timeout : Z) w r w' :
  wait_for_response output_path previous command timeout w = (r, w') ->
  exists tr, trace w' = trace w ++ tr /\
             Forall (fun ev => is_io ev || is_sleep ev = true) tr.
Proof.
  intros H. apply wait_for_response_run in H.
  destruct H as ((tr & (_ & _ & T) & F) & _).
  exists (EvRead output_path :: tr). split; [exact T|].
  constructor; [reflexivity | apply Forall_read_sleep_io; exact F].
Qed.

End MainCases.

(* ================================================================== *)
(** ** Exit codes and streams *)

Section ExitCodes.

(** X2. [main] ends with [2] exactly when every word of the command line
    is white space only (no word at all included). *)
Theorem main_exit_2_iff_blank (args : Args) (w : World) :
  fst (main args w) = Ok 2 <-> Forall blank (arg_command args).
Proof.
  split.
  - destruct (main args w) as [r w'] eqn:H. cbn [fst]. intros ->.
    apply main_cases in H. cbv zeta in H.
    destruct H as [(E & _)|(_ & H)].
    { apply blank_join, strip_nil. exact E. }
    exfalso.
    destruct H as [(o & _ & _ & R & _)|(previous & _ & H)]; [discriminate|].
    destruct H as [(e & w1 & _ & R)|(w1 & _ & H)].
    + unfold report in R. destruct (is_OSError e); discriminate.
    + destruct H as [(e & w2 & _ & _ & R & _)|(response & w2 & _ & R & _)];
        discriminate.
  - intros B. apply blank_join, strip_nil in B.
    unfold main. rewrite B. reflexivity.
Qed.


Lemma snapshot_trace (path : str) (w : World) r w0 :
  snapshot path w = (r, w0) -> trace w0 = trace w ++ [EvRead path].
Proof. rewrite snapshot_unfold. intros H. injection H as _ <-. reflexivity. Qed.

(** X4. The two streams are kept apart: a run of [main] that does not
    end with [0] writes nothing to standard output, and a run that ends
    with [0] prints nothing on standard error. *)
Theorem main_streams (args : Args) (w : World) r w' :
  main args w = (r, w') ->
  (r <> Ok 0 -> stdout_text (trace w') = stdout_text (trace w)) /\
  (r = Ok 0 -> stderr_text (trace w') = stderr_text (trace w)).
Proof.
  intros H. apply main_cases in H. cbv zeta in H.
  destruct H as [(_ & -> & ->)|(_ & H)].
  { split; [intros _ | discriminate]. cbn [log trace].
    rewrite stdout_text_app. simpl. apply app_nil_r. }
  assert (T0 : trace (log (EvRead (arg_out args)) (pass 0 w))
               = trace w ++ [EvRead (arg_out args)]) by reflexivity.
  set (w0 := log (EvRead (arg_out args)) (pass 0 w)) in *.
  destruct H as [(o & _ & _ & -> & ->)|(previous & _ & H)].
  { split; [intros _ | discriminate].
    rewrite T0, stdout_text_app. simpl. apply app_nil_r. }
  destruct H as [(e & w1 & S1 & R)|(w1 & S1 & H)].
  { apply send_command_io in S1. destruct S1 as (tr & T1 & F1).
    assert (O1 : stdout_text (trace w1) = stdout_text (trace w)).
    { rewrite T1, T0, !stdout_text_app, (stdout_text_io tr F1). simpl.
      rewrite !app_nil_r. reflexivity. }
    unfold report in R. destruct (is_OSError e); injection R as <- <-;
      (split; [intros _ | discriminate]); [|exact O1].
    cbn [log trace]. rewrite stdout_text_app, O1. simpl. apply app_nil_r. }
  apply send_command_io in S1. destruct S1 as (tr1 & T1 & F1).
  destruct H as [(e & w2 & S2 & _ & -> & ->)|(response & w2 & S2 & -> & ->)];
    apply wait_for_response_io in S2; destruct S2 as (tr2 & T2 & F2).
  - split; [intros _ | discriminate]. cbn [log trace].
    rewrite T2, T1, T0, !stdout_text_app, (stdout_text_io tr1 F1),
      (stdout_text_io tr2 F2). simpl. rewrite !app_nil_r. reflexivity.
  - split; [congruence | intros _]. rewrite emit_unfold. cbn [snd].
    destruct (endswith_nl response); cbn [log trace];
      rewrite T2, T1, T0, !stderr_text_app, (stderr_text_io tr1 F1),
        (stderr_text_io tr2 F2); simpl; rewrite !app_nil_r; reflexivity.
Qed.

(** Nobody there: the run ends with [1] and standard output stays empty. *)
Lemma main_streams_witness :
  stdout_text
    (trace (snd (main (mkArgs [lit "state"] (lit "pipe") (lit "out") 100)
                   (start deserted 0)))) = [].
Proof.
  refine (proj1 (main_streams
            (mkArgs [lit "state"] (lit "pipe") (lit "out") 100)
            (start deserted 0) (Ok 1) _ _) _).
  - vm_compute. reflexivity.
  - discriminate.
Defined.

(** X5. An output file that cannot be read, for another reason than its
    absence, stops [main] before anything is done to the pipe: the
    error of the read leaves [main] as it is, the handlers of the send
    and the wait do not see it, and the process ends with [1] on the
    interpreter's report. *)
Theorem main_unreadable_output (args : Args) (w : World) (o : oserror) :
  strip (join (lit " ") (arg_command args)) <> [] ->
  file_now w (arg_out args) = Fails o ->
  errno o <> ENOENT ->
  main args w = (Raise (OSError o), log (EvRead (arg_out args)) (pass 0 w)) /\
  script args w =
    (Ok 1, log (EvTraceback (OSError o))
             (log (EvRead (arg_out args)) (pass 0 w))).
Proof.
  intros NE F En. fold (command_of args) in NE.
  assert (M : main args w =
              (Raise (OSError o), log (EvRead (arg_out args)) (pass 0 w))).
  { rewrite (main_unfold args w NE), snapshot_unfold, F.
    apply Z.eqb_neq in En. rewrite En. reflexivity. }
  split; [exact M|]. unfold script, try_except. rewrite M. reflexivity.
Qed.

(** Permission denied on the output file. *)
Lemma main_unreadable_output_witness :
  main (mkArgs [lit "state"] (lit "pipe") (lit "out") 2000)
    (start (unreadable eacces) 0) =
  (Raise (OSError eacces),
   log (EvRead (lit "out")) (pass 0 (start (unreadable eacces) 0))).
Proof.
  apply (main_unreadable_output
           (mkArgs [lit "state"] (lit "pipe") (lit "out") 2000)
           (start (unreadable eacces) 0) eacces).
  - vm_compute. discriminate.
  - reflexivity.
  - vm_compute. discriminate.
Defined.

End ExitCodes.

(* ================================================================== *)
(** ** The cadence of the two loops *)

Section Cadence.

Lemma open_loop_polling (pipe_path : str) (deadline : Z) (fuel : nat) :
  forall w r w',
    open_loop fuel pipe_path deadline w = (r, w') ->
    r <> Diverge ->
    exists n, (n < fuel)%nat /\
              trace w' = trace w ++ polling (EvOpen pipe_path) n.
Proof.
  induction fuel as [|fuel IH]; intros w r w' H ND.
  - injection H as <- _. contradiction.
  - rewrite open_loop_step in H. cbv zeta in H.
    destruct (pipe_now w pipe_path) as [fd|o].
    { injection H as _ <-. exists 0%nat. split; [lia | reflexivity]. }
    destruct (not_ready o).
    2:{ injection H as _ <-. exists 0%nat. split; [lia | reflexivity]. }
    destruct (_ >=? deadline).
    { injection H as _ <-. exists 0%nat. split; [lia | reflexivity]. }
    apply IH in H; [|exact ND]. destruct H as (n & L & T).
    exists (S n). split; [lia|]. rewrite T. cbn [log pass trace polling].
    rewrite <- !app_assoc. reflexivity.
Qed.

Lemma poll_loop_polling (output_path previous command : str) (deadline : Z)
    (fuel : nat) :
  forall w r w',
    poll_loop fuel output_path previous command deadline w = (r, w') ->
    r <> Diverge ->
    exists n, (n < fuel)%nat /\
              trace w' = trace w ++ polling (EvRead output_path) n.
Proof.
  induction fuel as [|fuel IH]; intros w r w' H ND.
  - injection H as <- _. contradiction.
  - rewrite poll_loop_step in H. cbv zeta in H.
    set (miss := if _ >=? deadline then _ else _) in H.
    assert (Miss : miss = (r, w') ->
              exists n, (n < S fuel)%nat /\
                        trace w' = trace w ++ polling (EvRead output_path) n).
    { clear H. subst miss. intros H. destruct (_ >=? deadline).
      { injection H as _ <-. exists 0%nat. split; [lia | reflexivity]. }
      apply IH in H; [|exact ND]. destruct H as (n & L & T).
      exists (S n). split; [lia|]. rewrite T. cbn [log pass trace polling].
      rewrite <- !app_assoc. reflexivity. }
    destruct (file_now w output_path) as [text|o].
    + destruct (negb (str_eqb text previous) && contains (marker command) text);
        [|auto].
      injection H as _ <-. exists 0%nat. split; [lia | reflexivity].
    + destruct (errno o =? ENOENT); [auto|].
      injection H as _ <-. exists 0%nat. split; [lia | reflexivity].
Qed.

Lemma send_command_shape (pipe_path command : str) (timeout : Z) w r w' :
  send_command pipe_path command timeout w = (r, w') ->
  utf8 (command ++ [NL]) <> None ->
  exists n post,
    (n < polls timeout)%nat /\
    trace w' = trace w ++ polling (EvOpen pipe_path) n ++ post /\
    (post = [] \/ exists fd data, post = [EvWrite fd data; EvClose fd]) /\
    (forall msg cause, r = Raise (TimeoutError msg cause) -> post = []).
Proof.
  intros H U.
  pose proof (send_command_run _ _ _ _ _ _ H) as (pre & post & _ & _ & _ & R).
  rewrite send_command_unfold in H. cbv zeta in H.
  destruct (utf8 (command ++ [NL])) as [payload|]; [|contradiction].
  destruct (open_loop _ _ _ _) as [r0 w1] eqn:L.
  assert (ND : r0 <> Diverge).
  { intros ->. injection H as Hr _. subst r. exact R. }
  apply open_loop_polling in L; [|exact ND]. destruct L as (n & Ln & T).
  cbn [pass trace] in T.
  destruct r0 as [fd|e|]; [| |contradiction].
  - injection H as Hr <-. exists n, [EvWrite fd payload; EvClose fd].
    split; [exact Ln|]. split; [|split; [eauto|]].
    + cbn [log pass trace]. rewrite T, <- !app_assoc. reflexivity.
    + intros msg cause E. subst r.
      destruct (write_now w1 fd payload) as [[]|o]; discriminate.
  - injection H as _ <-. exists n, []. split; [exact Ln|].
    split; [|auto]. rewrite app_nil_r. exact T.
Qed.

Lemma wait_for_response_shape (output_path previous command : str)
    (timeout : Z) w r w' :
  wait_for_response output_path previous command timeout w = (r, w') ->
  exists n,
    (n < polls timeout)%nat /\
    trace w' = trace w ++ polling (EvRead output_path) n.
Proof.
  intros H.
  pose proof (wait_for_response_run _ _ _ _ _ _ _ H) as (_ & _ & R).
  rewrite wait_for_response_unfold in H.
  apply poll_loop_polling in H.
  - destruct H as (n & Ln & T). exists n. split; [exact Ln | exact T].
  - intros ->. exact R.
Qed.



End Cadence.

(* ================================================================== *)
(** ** More on the two phases *)

Section MorePhases.

(** X7. If the output file never shows a fresh answer (whenever it is
    read it is absent, or equal to the baseline, or without the marker of
    the command), a call of [wait_for_response] ends with its timeout
    error, which names the path; not before [timeout] has gone by since
    the call was entered; and, where system calls take no time and a
    sleep lasts what was asked, less than one polling interval after the
    deadline. *)
Theorem wait_times_out_without_answer
    (output_path previous command : str) (timeout : Z) (w : World) :
  never_fresh (env w) output_path previous command ->
  exists w',
    wait_for_response output_path previous command timeout w =
      (Raise (TimeoutError
                (lit "timed out waiting for response file update: "
                   ++ output_path) None), w') /\
    clock w + timeout <= clock w' /\
    (quiet (env w) -> 0 <= timeout -> clock w' < clock w + timeout + POLL).
Proof.
  intros NF.
  destruct (wait_for_response output_path previous command timeout w)
    as [r w'] eqn:H.
  apply wait_for_response_run in H. destruct H as (_ & QB & R).
  destruct r as [text|e|]; [| |contradiction].
  - destruct R as (Ne & Co & k & t & An). specialize (NF k t).
    rewrite An in NF. apply str_eqb_neq in Ne. rewrite Ne, Co in NF.
    discriminate.
  - destruct R as [(o & _ & Ne & k & t & An)|[-> C]].
    + specialize (NF k t). rewrite An in NF. contradiction.
    + exists w'. auto.
Qed.

(** The output file never appears. *)
Lemma wait_times_out_without_answer_witness :
  exists w',
    wait_for_response (lit "out") [] (lit "state") 200 (start deserted 0) =
      (Raise (TimeoutError
                (lit "timed out waiting for response file update: "
                   ++ lit "out") None), w') /\
    200 <= clock w' /\ clock w' < 250.
Proof.
  destruct (wait_times_out_without_answer (lit "out") [] (lit "state") 200
              (start deserted 0)) as (w' & H & Lo & Up).
  - intros k t. reflexivity.
  - exists w'. split; [exact H|]. split; [exact Lo|].
    apply Up; [intros k; reflexivity | lia].
Defined.

Lemma substring_marker_prefix (command suffix text : str) :
  Substring (lit "command=" ++ command ++ suffix) text ->
  Substring (marker command) text.
Proof.
  intros (pre & post & ->). exists pre, (suffix ++ post).
  unfold marker. rewrite <- !app_assoc. reflexivity.
Qed.

(** X8. The correlation is a plain substring test: an answer to a
    longer command is taken for the answer to any command it starts
    with.  If the first read finds a text that differs from the baseline
    and contains ["command=" + command + suffix], the wait for [command]
    returns it. *)
Theorem wait_accepts_longer_command
    (output_path previous command suffix : str) (timeout : Z) (w : World)
    (text : str) :
  file_now (pass 0 w) output_path = Done text ->
  text <> previous ->
  Substring (lit "command=" ++ command ++ suffix) text ->
  wait_for_response output_path previous command timeout w =
  (Ok text, log (EvRead output_path) (pass 0 (pass 0 w))).
Proof.
  intros F Ne Sub. apply substring_marker_prefix in Sub.
  rewrite wait_for_response_unfold. unfold polls.
  rewrite poll_loop_step. cbv zeta. rewrite F.
  apply str_eqb_neq in Ne. rewrite Ne.
  apply contains_spec in Sub. rewrite Sub. reflexivity.
Qed.

(** The answer to [heal2] ends the wait for [heal]. *)
Lemma wait_accepts_longer_command_witness :
  wait_for_response (lit "out") [] (lit "heal") 2000
    (start (steady (lit "command=heal2 ok")) 0) =
  (Ok (lit "command=heal2 ok"),
   log (EvRead (lit "out"))
     (pass 0 (pass 0 (start (steady (lit "command=heal2 ok")) 0)))).
Proof.
  apply (wait_accepts_longer_command (lit "out") [] (lit "heal") (lit "2")
           2000 (start (steady (lit "command=heal2 ok")) 0)).
  - reflexivity.
  - vm_compute. discriminate.
  - exists [], (lit " ok"). reflexivity.
Defined.



(** With the reader attaching at [T], not later than the deadline, the
    loop of [send_command] gets the pipe open, less than one polling
    interval after [T]. *)
Lemma open_loop_served (T deadline : Z) (pipe_path : str) (fuel : nat) :
  forall w r w',
    env w = late_reader T -> T <= deadline -> clock w < T + POLL ->
    open_loop fuel pipe_path deadline w = (r, w') ->
    r = Diverge \/ (r = Ok 3 /\ T <= clock w' /\ clock w' < T + POLL).
Proof.
  induction fuel as [|fuel IH]; intros w r w' E TD C H.
  - injection H as <- _. left. reflexivity.
  - rewrite open_loop_step in H. cbv zeta in H.
    assert (Q : quiet (env w)) by (rewrite E; intros k; reflexivity).
    unfold pipe_now in H. rewrite E in H. cbn [late_reader on_open] in H.
    assert (C1 : clock (log (EvOpen pipe_path) (pass 0 w)) = clock w).
    { cbn [log clock]. rewrite quiet_pass by exact Q. lia. }
    destruct (T <=? clock w) eqn:L.
    + apply Z.leb_le in L. injection H as <- <-. right.
      split; [reflexivity|]. rewrite C1. lia.
    + apply Z.leb_gt in L.
      change (not_ready enxio) with true in H. cbv iota in H.
      set (w1 := log (EvOpen pipe_path) (pass 0 w)) in *.
      assert (C2 : clock (pass 0 w1) = clock w).
      { rewrite quiet_pass by exact Q. lia. }
      destruct (clock (pass 0 w1) >=? deadline) eqn:G; rewrite Z.geb_leb in G.
      { apply Z.leb_le in G. lia. }
      apply IH in H; [exact H | exact E | exact TD |].
      cbn [log clock]. rewrite quiet_pass by exact Q. lia.
Qed.

(** X10. A reader that attaches at any time between the call and the
    deadline, the deadline included, is served: where system calls take
    no time, [send_command] returns, having written the command, less
    than one polling interval after the reader attached (and so,
    possibly, after its deadline). *)
Theorem send_command_serves_late_reader
    (pipe_path command : str) (cb : bytes) (timeout c T : Z) :
  utf8 command = Some cb ->
  c <= T -> T <= c + timeout ->
  exists w' pre,
    send_command pipe_path command timeout (start (late_reader T) c) =
      (Ok tt, w') /\
    T <= clock w' /\ clock w' < T + POLL /\
    trace w' = pre ++ [EvWrite 3 (cb ++ [NL]); EvClose 3].
Proof.
  intros U CT TD.
  set (w := start (late_reader T) c).
  assert (Q : quiet (env w)) by (intros k; reflexivity).
  destruct (send_command pipe_path command timeout w) as [r w'] eqn:S1.
  pose proof (send_command_run _ _ _ _ _ _ S1)
    as (pre & post & (_ & _ & T1) & _ & _ & R1).
  rewrite send_command_unfold in S1. cbv zeta in S1.
  assert (U' : utf8 (command ++ [NL]) = Some (cb ++ [NL]))
    by (apply utf8_line; eauto).
  rewrite U' in S1.
  assert (C0 : clock (pass 0 w) = c).
  { rewrite quiet_pass by exact Q. subst w. cbn [start clock]. lia. }
  destruct (open_loop _ _ _ _) as [r0 wl] eqn:L.
  pose proof (open_loop_run _ _ _ _ _ _ L) as ((trl & (El & _ & _) & _) & _).
  apply (open_loop_served T) in L;
    [| reflexivity | rewrite C0; lia | rewrite C0; unfold POLL; lia].
  destruct L as [->|(-> & Lo & Up)].
  { injection S1 as <- _. contradiction. }
  assert (W : write_now wl 3 (cb ++ [NL]) = Done tt).
  { unfold write_now. rewrite El. reflexivity. }
  rewrite W in S1. cbn [of_outcome] in S1. injection S1 as <- <-.
  assert (Ql : quiet (env wl)) by (rewrite El; exact Q).
  assert (Cw : clock (log (EvClose 3)
                        (pass 0 (log (EvWrite 3 (cb ++ [NL])) (pass 0 wl))))
               = clock wl).
  { cbn [log clock]. rewrite quiet_pass by (cbn [log env pass]; exact Ql).
    cbn [log clock]. rewrite quiet_pass by exact Ql. lia. }
  eexists. exists (trace wl). split; [reflexivity|].
  rewrite Cw. split; [exact Lo|]. split; [exact Up|].
  cbn [log pass trace]. rewrite <- app_assoc. reflexivity.
Qed.

(** A timeout of 120 ms and a reader that attaches at the deadline: the
    command is delivered at 150 ms. *)
Lemma send_command_serves_late_reader_witness :
  exists w' pre,
    send_command (lit "pipe") (lit "state") 120 (start (late_reader 120) 0) =
      (Ok tt, w') /\
    120 <= clock w' /\ clock w' < 120 + POLL /\
    trace w' = pre ++ [EvWrite 3 (lit "state" ++ [NL]); EvClose 3].
Proof.
  apply (send_command_serves_late_reader (lit "pipe") (lit "state")
           (lit "state") 120 0 120).
  - reflexivity.
  - lia.
  - lia.
Defined.

End MorePhases.

(* ================================================================== *)
(** ** Whole runs of [main] *)

Section WholeRuns.

Lemma send_always_ready (pipe_path command : str) (timeout : Z) (w : World)
    (fd : Z) (cb : bytes) :
  utf8 command = Some cb ->
  always_ready (env w) pipe_path fd -> writable (env w) ->
  send_command pipe_path command timeout w =
  (Ok tt,
   log (EvClose fd)
     (pass 0 (log (EvWrite fd (cb ++ [NL]))
                (pass 0 (log (EvOpen pipe_path) (pass 0 (pass 0 w))))))).
Proof.
  intros U R Wr. rewrite send_command_unfold. cbv zeta.
  assert (U' : utf8 (command ++ [NL]) = Some (cb ++ [NL]))
    by (apply utf8_line; eauto).
  rewrite U'. unfold polls. rewrite open_loop_step. cbv zeta.
  unfold pipe_now. cbn [pass env]. rewrite R.
  unfold write_now. cbn [pass log env]. rewrite Wr. reflexivity.
Qed.

Lemma snapshot_ok (path : str) (w : World) (previous : str) :
  fst (snapshot path w) = Ok previous ->
  snapshot path w = (Ok previous, log (EvRead path) (pass 0 w)).
Proof.
  rewrite snapshot_unfold. cbn [fst]. intros ->. reflexivity.
Qed.

(** X11. The run that succeeds at once. With a reader attached that
    takes the write, and an output file that, once the baseline is
    taken, holds a text that differs from it and contains
    ["command=" + command], [main] ends with [0] after exactly this:
    the baseline read, one open, one write of the command line, one
    close, one read, and the text on standard output, made to end with a
    newline. *)
Theorem main_succeeds_at_once (args : Args) (w : World)
    (fd : Z) (cb : bytes) (previous text : str) :
  strip (join (lit " ") (arg_command args)) <> [] ->
  utf8 (command_of args) = Some cb ->
  always_ready (env w) (arg_pipe args) fd -> writable (env w) ->
  fst (snapshot (arg_out args) w) = Ok previous ->
  (forall k t, (ticks w < k)%nat ->
               on_read (env w) k t (arg_out args) = Done text) ->
  text <> previous ->
  Substring (lit "command=" ++ command_of args) text ->
  exists w',
    main args w = (Ok 0, w') /\
    trace w' =
      trace w ++
      [EvRead (arg_out args); EvOpen (arg_pipe args);
       EvWrite fd (cb ++ [NL]); EvClose fd;
       EvRead (arg_out args); EvStdout text] ++
      (if endswith_nl text then [] else [EvStdout [NL]]).
Proof.
  intros NE U R Wr B A Ne Sub. fold (command_of args) in NE.
  rewrite (main_unfold args w NE), (snapshot_ok _ _ _ B).
  set (w0 := log (EvRead (arg_out args)) (pass 0 w)).
  rewrite (send_always_ready _ _ _ w0 fd cb U R Wr).
  rewrite wait_for_response_unfold. unfold polls.
  rewrite poll_loop_step. cbv zeta.
  unfold file_now at 1. cbn [pass log env ticks]. rewrite A by (subst w0; cbn [pass log ticks]; lia).
  apply str_eqb_neq in Ne. rewrite Ne.
  apply contains_spec in Sub. fold (marker (command_of args)) in Sub.
  rewrite Sub. cbn [negb andb].
  eexists. split; [reflexivity|].
  rewrite emit_unfold. cbn [snd].
  destruct (endswith_nl text); cbn [log pass trace]; subst w0;
    cbn [log pass trace]; rewrite <- !app_assoc; reflexivity.
Qed.

(** The reader answers [state]. *)
Lemma main_succeeds_at_once_witness :
  exists w',
    main (mkArgs [lit "state"] (lit "pipe") (lit "out") 2000)
      (start (responsive (lit "old") (lit "command=state HP: 100")) 0) =
      (Ok 0, w') /\
    trace w' =
      [] ++
      [EvRead (lit "out"); EvOpen (lit "pipe");
       EvWrite 3 (lit "state" ++ [NL]); EvClose 3;
       EvRead (lit "out"); EvStdout (lit "command=state HP: 100")] ++
      (if endswith_nl (lit "command=state HP: 100") then []
       else [EvStdout [NL]]).
Proof.
  apply (main_succeeds_at_once
           (mkArgs [lit "state"] (lit "pipe") (lit "out") 2000)
           (start (responsive (lit "old") (lit "command=state HP: 100")) 0)
           3 (lit "state") (lit "old") (lit "command=state HP: 100")).
  - vm_compute. discriminate.
  - reflexivity.
  - intros k t. reflexivity.
  - intros k t fd data. reflexivity.
  - reflexivity.
  - intros k t L. destruct k; [simpl in L; lia | reflexivity].
  - vm_compute. discriminate.
  - exists [], (lit " HP: 100"). reflexivity.
Defined.

(** X12. The run without a reader. If no reader ever attaches to the
    pipe, [main] ends with [1]: after the baseline read it has only
    tried to open the pipe, at the fixed pace; it has written nothing to
    the pipe, has not read the output file again, and has printed
    [error: timed out waiting for pipe: <path>] on standard error. *)
Theorem main_without_reader (args : Args) (w : World)
    (cb : bytes) (previous : str) :
  strip (join (lit " ") (arg_command args)) <> [] ->
  utf8 (command_of args) = Some cb ->
  fst (snapshot (arg_out args) w) = Ok previous ->
  never_ready (env w) (arg_pipe args) ->
  exists w' n,
    main args w = (Ok 1, w') /\
    (n < polls (arg_timeout args))%nat /\
    trace w' =
      trace w ++
      EvRead (arg_out args) :: polling (EvOpen (arg_pipe args)) n ++
      [EvStderr (lit "error: timed out waiting for pipe: "
                   ++ arg_pipe args ++ [NL])].
Proof.
  intros NE U B NR. fold (command_of args) in NE.
  rewrite (main_unfold args w NE), (snapshot_ok _ _ _ B).
  set (w0 := log (EvRead (arg_out args)) (pass 0 w)).
  assert (U' : utf8 (command_of args ++ [NL]) <> None).
  { assert (E : utf8 (command_of args ++ [NL]) = Some (cb ++ [NL]))
      by (apply utf8_line; eauto). rewrite E. discriminate. }
  destruct (send_command (arg_pipe args) (command_of args) (arg_timeout args)
              w0) as [r w1] eqn:S1.
  pose proof (send_command_shape _ _ _ _ _ _ S1 U')
    as (n & post & Ln & T & _ & Pt).
  apply send_command_run in S1.
  destruct S1 as (pre & post' & _ & _ & _ & R).
  change (env w0) with (env w) in R.
  assert (Tm : exists o, r = Raise (pipe_timeout (arg_pipe args) o)).
  { destruct r as [[]|e|]; [| |contradiction].
    - destruct R as (fd & _ & _ & _ & k & t & An).
      destruct (NR k t) as (o & An' & _). congruence.
    - destruct R as [(_ & Un & _)|[(o & _ & N & (k & t & An) & _)|
                     [(o & -> & _)|(o & fd & _ & _ & _ & _ & k & t & An)]]].
      + contradiction.
      + destruct (NR k t) as (o' & An' & N'). congruence.
      + exists o. reflexivity.
      + destruct (NR k t) as (o' & An' & _). congruence. }
  destruct Tm as (o & ->). rewrite (Pt _ _ eq_refl), app_nil_r in T.
  unfold report. cbn [pipe_timeout is_OSError exn_str].
  eexists. exists n. split; [reflexivity|]. split; [exact Ln|].
  cbn [log trace]. rewrite T. subst w0. cbn [log pass trace].
  rewrite <- !app_assoc. reflexivity.
Qed.

(** Nobody there. *)
Lemma main_without_reader_witness :
  exists w' n,
    main (mkArgs [lit "state"] (lit "pipe") (lit "out") 100)
      (start deserted 0) = (Ok 1, w') /\
    (n < polls 100)%nat /\
    trace w' =
      [] ++
      EvRead (lit "out") :: polling (EvOpen (lit "pipe")) n ++
      [EvStderr (lit "error: timed out waiting for pipe: "
                   ++ lit "pipe" ++ [NL])].
Proof.
  apply (main_without_reader
           (mkArgs [lit "state"] (lit "pipe") (lit "out") 100)
           (start deserted 0) (lit "state") []).
  - vm_compute. discriminate.
  - reflexivity.
  - reflexivity.
  - intros k t. exists enxio. split; reflexivity.
Defined.

(** X13. The run without an answer. With a reader attached that takes
    the write, and an output file that never shows a fresh answer,
    [main] ends with [1], and the command has been delivered all the
    same: after the baseline read come one open, the write of the
    command line and the close, then reads at the fixed pace, then
    [error: timed out waiting for response file update: <path>] on
    standard error. *)
Theorem main_without_answer (args : Args) (w : World)
    (fd : Z) (cb : bytes) (previous : str) :
  strip (join (lit " ") (arg_command args)) <> [] ->
  utf8 (command_of args) = Some cb ->
  always_ready (env w) (arg_pipe args) fd -> writable (env w) ->
  fst (snapshot (arg_out args) w) = Ok previous ->
  never_fresh (env w) (arg_out args) previous (command_of args) ->
  exists w' n,
    main args w = (Ok 1, w') /\
    (n < polls (arg_timeout args))%nat /\
    trace w' =
      trace w ++
      [EvRead (arg_out args); EvOpen (arg_pipe args);
       EvWrite fd (cb ++ [NL]); EvClose fd] ++
      polling (EvRead (arg_out args)) n ++
      [EvStderr (lit "error: timed out waiting for response file update: "
                   ++ arg_out args ++ [NL])].
Proof.
  intros NE U R Wr B NF. fold (command_of args) in NE.
  rewrite (main_unfold args w NE), (snapshot_ok _ _ _ B).
  set (w0 := log (EvRead (arg_out args)) (pass 0 w)).
  rewrite (send_always_ready _ _ _ w0 fd cb U R Wr).
  set (w1 := log (EvClose fd) _).
  destruct (wait_for_response (arg_out args) previous (command_of args)
              (arg_timeout args) w1) as [r w2] eqn:S2.
  pose proof (wait_for_response_shape _ _ _ _ _ _ _ S2) as (n & Ln & T).
  apply wait_for_response_run in S2. destruct S2 as (_ & _ & R2).
  change (env w1) with (env w) in R2.
  assert (Tm : r = Raise (response_timeout (arg_out args))).
  { destruct r as [text|e|]; [| |contradiction].
    - destruct R2 as (Ne & Co & k & t & An). specialize (NF k t).
      rewrite An in NF.
      apply str_eqb_neq in Ne. rewrite Ne, Co in NF. discriminate.
    - destruct R2 as [(o & _ & Ne & k & t & An)|[-> _]]; [|reflexivity].
      specialize (NF k t). rewrite An in NF.
      contradiction. }
  subst r. unfold report. cbn [response_timeout is_OSError exn_str].
  eexists. exists n. split; [reflexivity|]. split; [exact Ln|].
  cbn [log trace]. rewrite T. subst w1 w0. cbn [log pass trace].
  rewrite <- !app_assoc. reflexivity.
Qed.

(** A reader that takes the command and leaves the file as it was. *)
Lemma main_without_answer_witness :
  exists w' n,
    main (mkArgs [lit "heal"] (lit "pipe") (lit "out") 100)
      (start (steady (lit "command=heal")) 0) = (Ok 1, w') /\
    (n < polls 100)%nat /\
    trace w' =
      [] ++
      [EvRead (lit "out"); EvOpen (lit "pipe");
       EvWrite 3 (lit "heal" ++ [NL]); EvClose 3] ++
      polling (EvRead (lit "out")) n ++
      [EvStderr (lit "error: timed out waiting for response file update: "
                   ++ lit "out" ++ [NL])].
Proof.
  apply (main_without_answer
           (mkArgs [lit "heal"] (lit "pipe") (lit "out") 100)
           (start (steady (lit "command=heal")) 0)
           3 (lit "heal") (lit "command=heal")).
  - vm_compute. discriminate.
  - reflexivity.
  - intros k t. reflexivity.
  - intros k t fd data. reflexivity.
  - reflexivity.
  - intros k t. reflexivity.
Defined.

End WholeRuns.

(* ================================================================== *)
(** ** The bytes of a command *)

Section Bytes.

Lemma utf8_ascii (s : str) : ascii_only s -> utf8 s = Some s.
Proof.
  induction 1 as [|c s H _ IH]; [reflexivity|].
  simpl. rewrite (utf8_char_ascii c H), IH. reflexivity.
Qed.

(** X14. An ASCII command reaches the pipe byte for byte: a call of
    [send_command] that returns has written the code points of the
    command, followed by the byte [10]. *)
Theorem ascii_command_verbatim
    (pipe_path command : str) (timeout : Z) (w w' : World) :
  ascii_only command ->
  send_command pipe_path command timeout w = (Ok tt, w') ->
  exists pre fd,
    trace w' = trace w ++ pre ++ [EvWrite fd (command ++ [NL]); EvClose fd].
Proof.
  intros A H. apply send_command_run in H.
  destruct H as (pre & post & (_ & _ & T) & _ & _ & fd & cb & U & -> & _).
  rewrite (utf8_ascii command A) in U. injection U as <-.
  exists pre, fd. exact T.
Qed.

(** The command [state]. *)
Lemma ascii_command_verbatim_witness :
  exists pre fd,
    trace (log (EvClose 3)
             (pass 0 (log (EvWrite 3 (lit "state" ++ [NL]))
                        (pass 0 (log (EvOpen (lit "pipe"))
                                   (pass 0 (pass 0 (start (steady []) 0))))))))
    = [] ++ pre ++ [EvWrite fd (lit "state" ++ [NL]); EvClose fd].
Proof.
  apply (ascii_command_verbatim (lit "pipe") (lit "state") 2000
           (start (steady []) 0)).
  - repeat constructor.
  - vm_compute. reflexivity.
Defined.





End Bytes.
